(** * rag-frontend: the authenticated client, the session, uploads, the
      file list, the dashboard and the chat view

    A shallow embedding of the client-side logic of the repository:

    - [Api]    : src/services/api.ts, the axios instance with its request
                 interceptor and its refresh-on-401 response interceptor;
    - [Auth]   : the session service (unnamed/part_002, imported as
                 services/auth) and the zustand store (unnamed/part_003,
                 imported as store/authStore);
    - [Upload] : src/components/FileUpload/FileUpload.tsx, [handleFile];
    - [Files], [Rename], [Listing] :
                 src/components/FileList/FileList.tsx, with the selection
                 kept by the dashboard;
    - [Dashboard] : unnamed/part_001, the banners and their timers;
    - [Chat], [Endpoints] :
                 the chat view (second file of unnamed/part_000, imported as
                 components/Chat/ChatInterface) and the body of its request;
    - [Credentials] : the writes of [localStorage], wherever they are made;
    - the interfaces of unnamed/part_004 (types), one module each.

    [localStorage] is a finite map from strings to strings.  React state
    cells are record fields, and a functional update [setX(prev => f prev)]
    is the function [f] applied to the field.  The backend is outside: in
    [Api] and [Auth] it is a function of the calls made so far and of the
    call; a handler of a component that awaits a request takes the answer to
    that request as an argument. *)

From Stdlib Require Import ZArith String Ascii List Lia Bool.
From stdpp Require Import base decidable option list gmap strings.

Local Open Scope string_scope.
Local Open Scope list_scope.

(** ** JavaScript values used by the code *)

Module Js.

(** [if (s)] and [!!s] on a value of type [string | null]: [null] and the
    empty string are falsy, every other string is truthy. *)
Definition truthy (v : option string) : bool :=
  match v with
  | Some (String _ _) => true
  | _ => false
  end.

(** [v || d] on a [string | null | undefined]. *)
Definition or_else (v : option string) (d : string) : string :=
  if truthy v then default d v else d.

(** Text whose characters the code counts, cuts or tests for white space
    (what is typed into the chat or a rename box, the content of a message)
    is held as what a string is in the language: the sequence of its UTF-16
    code units, so that [length] and [slice] count what [s.length] and
    [s.slice] count.  A code unit is a number below 65536; the functions
    below do not depend on that bound.  Strings that the code only
    compares, joins or splits at an ASCII character (keys, tokens, urls,
    names, labels) are plain strings, read as their bytes in UTF-8. *)
Definition text : Type := list N.

(** The text of a literal of the source, which is ASCII throughout. *)
Definition lit (s : string) : text := N_of_ascii <$> list_ascii_of_string s.

(** [!!s] on a text. *)
Definition nonempty (t : text) : bool :=
  match t with [] => false | _ :: _ => true end.

(** What [String.prototype.trim] strips: the code points WhiteSpace and
    LineTerminator of the language (TAB, LF, VT, FF, CR, SP, NBSP, the other
    space separators of Unicode, LS, PS and ZWNBSP).  All of them are single
    code units. *)
Definition is_white_space (u : N) : bool :=
  bool_decide (u ∈ [9; 10; 11; 12; 13; 32; 160; 5760;
                    8192; 8193; 8194; 8195; 8196; 8197; 8198; 8199; 8200; 8201; 8202;
                    8232; 8233; 8239; 8287; 12288; 65279]%N).

Fixpoint trimStart (t : text) : text :=
  match t with
  | u :: r => if is_white_space u then trimStart r else t
  | [] => []
  end.

Definition trimEnd (t : text) : text := reverse (trimStart (reverse t)).

(** [s.trim()] *)
Definition trim (t : text) : text := trimEnd (trimStart t).

(** [s.slice(0, n)] for [0 <= n]. *)
Definition slice0 (n : nat) (t : text) : text := take n t.

End Js.

(** ** window.localStorage *)

Module Storage.

Definition getItem (k : string) (st : gmap string string) : option string :=
  st !! k.

Definition setItem (k v : string) (st : gmap string string) : gmap string string :=
  <[k := v]> st.

Definition removeItem (k : string) (st : gmap string string) : gmap string string :=
  delete k st.


End Storage.

(** ** src/services/api.ts: the axios instance of [ApiClient] *)

Module Api.

(** The request configuration axios threads through the interceptors.
    [_retry] is the custom flag the response interceptor sets; axios keeps
    it when the configuration is handed back to the instance. *)
Record Config := mkConfig {
  method : string;
  url : string;
  body : string;
  Authorization : option string;
  _retry : bool
}.

Record Response := mkResponse {
  status : Z;
  data : string
}.

(** The rejection value: [error.config], [error.response] (absent when no
    response arrived) and [error.message]. *)
Record AxiosError := mkError {
  config : Config;
  response : option Response;
  message : string
}.

Inductive Outcome :=
| Resolved (r : Response)
| Rejected (e : AxiosError).

(** What goes on the wire. *)
Inductive Call :=
| Send (c : Config)                (* a request of the instance [this.client] *)
| Refresh (endpoint token : string). (* the bare [axios.post] of the refresh flow *)

(** What the instance's adapter answers: a response axios resolves with, or
    a failure with the response (if any) and the message of the error. *)
Inductive Reply :=
| Ok (r : Response)
| Fail (r : option Response) (msg : string).

Record Browser := mkBrowser {
  localStorage : gmap string string;
  href : string;              (* window.location.href *)
  wire : list Call            (* calls made so far, oldest first *)
}.

Definition with_storage (f : gmap string string -> gmap string string) (b : Browser) : Browser :=
  {| localStorage := f (localStorage b); href := href b; wire := wire b |}.

Definition with_href (h : string) (b : Browser) : Browser :=
  {| localStorage := localStorage b; href := h; wire := wire b |}.

Definition record (c : Call) (b : Browser) : Browser :=
  {| localStorage := localStorage b; href := href b; wire := wire b ++ [c] |}.

Definition set_Authorization (v : string) (c : Config) : Config :=
  {| method := method c; url := url c; body := body c;
     Authorization := Some v; _retry := _retry c |}.

Definition set_retry (c : Config) : Config :=
  {| method := method c; url := url c; body := body c;
     Authorization := Authorization c; _retry := true |}.

Definition is_refresh (c : Call) : bool :=
  match c with Refresh _ _ => true | Send _ => false end.

Definition is_send (c : Call) : bool :=
  match c with Send _ => true | Refresh _ _ => false end.

(** Number of refresh calls, and of requests of the instance, in a log. *)
Definition refresh_calls (l : list Call) : nat := length (List.filter is_refresh l).
Definition send_calls (l : list Call) : nat := length (List.filter is_send l).

(** The outcome of a request whose failure the response interceptor hands
    on as it is. *)
Definition plain (cfg : Config) (reply : Reply) : Outcome :=
  match reply with
  | Ok r => Resolved r
  | Fail r msg => Rejected {| config := cfg; response := r; message := msg |}
  end.

Section Client.

(** [import.meta.env.VITE_API_BASE_URL] *)
Variable VITE_API_BASE_URL : option string.

(** The backend: the answer to a call is a function of the calls made
    before it and of the call. *)
Variable net : list Call -> Config -> Reply.
Variable refresh_net : list Call -> string -> string -> string + AxiosError.

Definition API_BASE_URL : string :=
  Js.or_else VITE_API_BASE_URL "http://localhost:8000/api".

(** Request interceptor: attach the stored access token. *)
Definition requestInterceptor (cfg : Config) (b : Browser) : Config :=
  match Storage.getItem "access_token" (localStorage b) with
  | Some (String _ _ as token) => set_Authorization ("Bearer " +:+ token) cfg
  | _ => cfg
  end.

(** Response interceptor, rejection side.  [reissue] is [this.client].
    The promise [this.client(originalRequest)] is returned without being
    awaited, so its rejection is not caught by the [catch] block.
    [error.config] and [originalRequest] are one object: the error that is
    rejected at the end carries the [_retry] mark. *)
Definition responseError
    (reissue : Config -> Browser -> option (Outcome * Browser))
    (error : AxiosError) (b : Browser) : option (Outcome * Browser) :=
  let originalRequest := config error in
  match response error with
  | Some r =>
      if bool_decide (status r = 401%Z) && negb (_retry originalRequest) then
        let originalRequest := set_retry originalRequest in
        let error := {| config := originalRequest;
                        response := response error;
                        message := message error |} in
        match Storage.getItem "refresh_token" (localStorage b) with
        | Some (String _ _ as refreshToken) =>
            let endpoint := API_BASE_URL +:+ "/auth/refresh/" in
            let answer := refresh_net (wire b) endpoint refreshToken in
            let b := record (Refresh endpoint refreshToken) b in
            match answer with
            | inl access =>
                let b := with_storage (Storage.setItem "access_token" access) b in
                let originalRequest :=
                  set_Authorization ("Bearer " +:+ access) originalRequest in
                reissue originalRequest b
            | inr refreshError =>
                let b := with_storage (Storage.removeItem "access_token") b in
                let b := with_storage (Storage.removeItem "refresh_token") b in
                let b := with_storage (Storage.removeItem "user") b in
                let b := with_href "/login" b in
                Some (Rejected refreshError, b)
            end
        | _ => Some (Rejected error, b)
        end
      else Some (Rejected error, b)
  | None => Some (Rejected error, b)
  end.

(** [this.client(config)]: request interceptor, the call, response
    interceptor.  The instance calls itself from its own interceptor, so
    the model takes fuel; [client_fuel] shows that two units are always
    enough. *)
Fixpoint client (fuel : nat) (cfg : Config) (b : Browser) : option (Outcome * Browser) :=
  match fuel with
  | O => None
  | S fuel =>
      let cfg := requestInterceptor cfg b in
      let reply := net (wire b) cfg in
      let b := record (Send cfg) b in
      match reply with
      | Ok r => Some (Resolved r, b)
      | Fail r msg =>
          responseError (client fuel)
            {| config := cfg; response := r; message := msg |} b
      end
  end.

End Client.

(** Two configurations that ask the same of the backend: same method, url
    and body. *)
Definition same_request (c1 c2 : Config) : Prop :=
  method c1 = method c2 /\ url c1 = url c2 /\ body c1 = body c2.

(** The three ways a request can leave the wire: sent once; sent once and
    followed by a refresh call; sent, refreshed and sent again. *)
Inductive Trace (cfg : Config) (before after : list Call) : Prop :=
| sent_once (c1 : Config) :
    same_request c1 cfg -> after = before ++ [Send c1] -> Trace cfg before after
| refresh_failed (c1 : Config) (endpoint token : string) :
    same_request c1 cfg ->
    after = before ++ [Send c1; Refresh endpoint token] -> Trace cfg before after
| sent_again (c1 c2 : Config) (endpoint token : string) :
    same_request c1 cfg -> same_request c2 cfg -> _retry c2 = true ->
    after = before ++ [Send c1; Refresh endpoint token; Send c2] -> Trace cfg before after.

End Api.

(** ** unnamed/part_004 (types): the interfaces the components exchange *)

Module User.
Record t := mk {
  id : Z;
  username : string;
  email : string;
  first_name : string;
  last_name : string
}.
End User.

Module AuthTokens.
Record t := mk {
  access : string;
  refresh : string
}.
End AuthTokens.

Module AuthResponse.
Record t := mk {
  user : User.t;
  tokens : AuthTokens.t
}.
End AuthResponse.

Module FileAsset.
Inductive Status := pending | uploaded | processing | ready | failed | deletion_failed.
Inductive Ingestion := not_started | in_progress | partial | complete | ingestion_failed.
Record t := mk {
  id : Z;
  filename : string;
  file_type : string;
  size : Z;
  uploaded_at : string;
  status : Status;
  ingestion_status : Ingestion;
  deletion_failed_flag : bool;     (* the field [deletion_failed] *)
  metadata : string                (* [Record<string, any>], kept opaque *)
}.
End FileAsset.

Module FileListResponse.
Record t := mk {
  results : list FileAsset.t;
  count : Z;
  page : Z;
  page_size : Z;
  total_pages : Z
}.
End FileListResponse.

Module PresignResponse.
Record t := mk {
  url : string;
  fields : list (string * string);
  s3_key : string
}.
End PresignResponse.

Module Citation.
Record t := mk {
  filename : string;
  page_number : option Z
}.
End Citation.

Module Message.
Inductive Role := user | assistant.
Record t := mk {
  id : Z;
  role : Role;
  content : Js.text;
  file_ids : list Z;
  citations : option (list Citation.t);
  created_at : string
}.
End Message.

Module ChatResponse.
Record t := mk {
  conversation_id : Z;
  message : Message.t;
  response : Message.t;
  citations : list Citation.t
}.
End ChatResponse.

Module Conversation.
Record t := mk {
  id : Z;
  created_at : string;
  updated_at : string;
  messages : list Message.t
}.
End Conversation.

(** ** The session: unnamed/part_002 (services/auth) and unnamed/part_003
       (store/authStore) *)

Module Auth.

(** The zustand store's state. *)
Record AuthState := mkAuthState {
  user : option User.t;
  isAuthenticated : bool
}.

(** Calls of the typed client the session makes. *)
Inductive ApiCall :=
| api_login (username password : string)
| api_register (username email password passwordConfirm : string).

Record World := mkWorld {
  localStorage : gmap string string;
  calls : list ApiCall;           (* network calls made so far, oldest first *)
  state : AuthState
}.

Definition with_storage (f : gmap string string -> gmap string string) (w : World) : World :=
  {| localStorage := f (localStorage w); calls := calls w; state := state w |}.

Definition called (c : ApiCall) (w : World) : World :=
  {| localStorage := localStorage w; calls := calls w ++ [c]; state := state w |}.

(** zustand's [set]. *)
Definition set (s : AuthState) (w : World) : World :=
  {| localStorage := localStorage w; calls := calls w; state := s |}.

Section Service.

(** [JSON.stringify] on a [User] and [JSON.parse] on a string; [None] is
    the [SyntaxError] that [JSON.parse] throws. *)
Variable JSON_stringify : User.t -> string.
Variable JSON_parse : string -> option User.t.

(** [apiClient.login] and [apiClient.register]: the backend's answer, a
    function of the calls made before. *)
Variable backend : list ApiCall -> ApiCall -> AuthResponse.t + Api.AxiosError.

(** [authService.setAuthData] *)
Definition setAuthData (data : AuthResponse.t) (w : World) : World :=
  let w := with_storage
             (Storage.setItem "access_token" (AuthTokens.access (AuthResponse.tokens data))) w in
  let w := with_storage
             (Storage.setItem "refresh_token" (AuthTokens.refresh (AuthResponse.tokens data))) w in
  with_storage (Storage.setItem "user" (JSON_stringify (AuthResponse.user data))) w.

(** [authService.login]: the error of [apiClient.login] is rethrown. *)
Definition authService_login (username password : string) (w : World)
  : (AuthResponse.t + Api.AxiosError) * World :=
  let answer := backend (calls w) (api_login username password) in
  let w := called (api_login username password) w in
  match answer with
  | inl response => (inl response, setAuthData response w)
  | inr error => (inr error, w)
  end.


(** [authService.logout] *)
Definition authService_logout (w : World) : World :=
  let w := with_storage (Storage.removeItem "access_token") w in
  let w := with_storage (Storage.removeItem "refresh_token") w in
  with_storage (Storage.removeItem "user") w.

(** [authService.isAuthenticated]: [!!localStorage.getItem('access_token')] *)
Definition authService_isAuthenticated (w : World) : bool :=
  Js.truthy (Storage.getItem "access_token" (localStorage w)).

(** [authService.getCurrentUser]: a missing or empty entry and a parse
    failure all give [null]. *)
Definition authService_getCurrentUser (w : World) : option User.t :=
  match Storage.getItem "user" (localStorage w) with
  | Some (String _ _ as userStr) => JSON_parse userStr
  | _ => None
  end.

(** The store's initial state. *)
Definition create (w : World) : World :=
  set {| user := authService_getCurrentUser w; isAuthenticated := authService_isAuthenticated w |} w.

(** [setUser]: [isAuthenticated: !!user] *)
Definition setUser (u : option User.t) (w : World) : World :=
  set {| user := u; isAuthenticated := bool_decide (is_Some u) |} w.

(** The store's [login]: on failure the error is rethrown and the state is
    not touched. *)
Definition login (username password : string) (w : World) : option Api.AxiosError * World :=
  match authService_login username password w with
  | (inl response, w) =>
      (None, set {| user := Some (AuthResponse.user response); isAuthenticated := true |} w)
  | (inr error, w) => (Some error, w)
  end.


(** The store's [logout]. *)
Definition logout (w : World) : World :=
  set {| user := None; isAuthenticated := false |} (authService_logout w).

(** The store's [checkAuth]. *)
Definition checkAuth (w : World) : World :=
  let user := authService_getCurrentUser w in
  let isAuth := authService_isAuthenticated w in
  set {| user := user; isAuthenticated := isAuth |} w.

End Service.

End Auth.

(** ** src/components/FileUpload/FileUpload.tsx *)

Module Upload.

(** The browser's [File]: name, MIME type and size in bytes. *)
Record File := mkFile {
  name : string;
  type : string;
  size : Z
}.

(** What [handleFile] does to the outside, in order. *)
Inductive Effect :=
| onError (msg : string)
| onUploadComplete (f : FileAsset.t)
| presignUpload (filename fileType : string) (size : Z)
| xhrPost (url : string) (fields : list (string * string)) (file : File)
| finalizeUpload (s3_key filename fileType : string) (size : Z).

Definition is_network (e : Effect) : bool :=
  match e with
  | presignUpload _ _ _ | xhrPost _ _ _ | finalizeUpload _ _ _ _ => true
  | onError _ | onUploadComplete _ => false
  end.

Definition network_calls (l : list Effect) : list Effect := List.filter is_network l.

(** The errors reported through [onError], in order. *)
Definition reported (l : list Effect) : list string :=
  omap (fun e => match e with onError msg => Some msg | _ => None end) l.

Record State := mkState {
  uploading : bool;
  progress : Z
}.

Definition maxSize : Z := 10 * 1024 * 1024.

Definition allowedTypes : list string :=
  [ "application/pdf";
    "text/plain";
    "application/vnd.openxmlformats-officedocument.wordprocessingml.document";
    "image/png";
    "image/jpeg" ].

Definition size_error : string := "File size exceeds 10MB limit".
Definition type_error : string := "File type not supported. Allowed: PDF, TXT, DOCX, PNG, JPEG".

(** [name.split('.').pop()]: the text after the last dot, the whole name
    when it has none. *)
Fixpoint last_segment_go (cur : string) (s : string) : string :=
  match s with
  | EmptyString => String.rev cur
  | String c r =>
      if Ascii.eqb c "."%char then last_segment_go EmptyString r
      else last_segment_go (String c cur) r
  end.

Definition last_segment (s : string) : string := last_segment_go EmptyString s.

(** [toLowerCase] as it acts on ASCII text: the letters A to Z are lowered
    and nothing else is touched.  The language lowers the other letters as
    well; where the lowered text itself is read below, it is for ASCII
    text. *)
Definition lower (c : ascii) : ascii :=
  let n := nat_of_ascii c in
  if (65 <=? n)%nat && (n <=? 90)%nat then ascii_of_nat (n + 32) else c.

Fixpoint toLowerCase (s : string) : string :=
  match s with
  | EmptyString => EmptyString
  | String c r => String (lower c) (toLowerCase r)
  end.

Definition fileTypeMap : list (string * string) :=
  [ ("pdf", "pdf"); ("txt", "txt"); ("docx", "docx");
    ("png", "png"); ("jpeg", "jpeg"); ("jpg", "jpeg") ].

Fixpoint assoc (k : string) (l : list (string * string)) : option string :=
  match l with
  | [] => None
  | (k', v) :: r => if String.eqb k k' then Some v else assoc k r
  end.

(** [fileTypeMap[fileExtension] || fileExtension], for the keys the literal
    itself has.  An object literal also answers to the two lower-case names
    it inherits, [constructor] and [__proto__]; they are set aside where
    the type is read below. *)
Definition fileTypeOf (f : File) : string :=
  let fileExtension := toLowerCase (last_segment (name f)) in
  Js.or_else (assoc fileExtension fileTypeMap) fileExtension.

(** How the transfer to the presigned target ends: the [load] event with a
    status, or the [error] event. *)
Inductive Xhr :=
| load (status : Z)
| transport_error.

(** [handleFile].  The three answers of the outside are read only when the
    handler gets to the call they answer.  Progress events of the transfer
    only move the progress bar and are left out. *)
Definition handleFile (file : File)
    (presign : PresignResponse.t + Api.AxiosError)
    (xhr : Xhr)
    (finalize : FileAsset.t + Api.AxiosError)
    (s : State) : State * list Effect :=
  if (maxSize <? size file)%Z then
    (s, [onError size_error])
  else if negb (bool_decide (type file ∈ allowedTypes)) then
    (s, [onError type_error])
  else
    let fileType := fileTypeOf file in
    let call1 := presignUpload (name file) fileType (size file) in
    let failed (done : list Effect) (msg : string) :=
      ({| uploading := false; progress := 0 |},
       done ++ [onError (Js.or_else (Some msg) "Upload failed")]) in
    match presign with
    | inr error => failed [call1] (Api.message error)
    | inl presignData =>
        let call2 := xhrPost (PresignResponse.url presignData)
                             (PresignResponse.fields presignData) file in
        match xhr with
        | transport_error => failed [call1; call2] "Upload failed"
        | load status =>
            if bool_decide (status = 204%Z) || bool_decide (status = 200%Z) then
              let call3 := finalizeUpload (PresignResponse.s3_key presignData)
                                          (name file) fileType (size file) in
              match finalize with
              | inr error => failed [call1; call2; call3] (Api.message error)
              | inl fileAsset =>
                  ({| uploading := false; progress := 0 |},
                   [call1; call2; call3; onUploadComplete fileAsset])
              end
            else failed [call1; call2] "Upload failed"
        end
    end.

(** Whether a text has a dot in it. *)
(** Every character of the string is ASCII. *)
Definition ascii_only (s : string) : bool :=
  forallb (fun c => (nat_of_ascii c <? 128)%nat) (list_ascii_of_string s).

(** A presign request for the name and the size given, whatever type it
    carries. *)
Definition presigns (filename : string) (size : Z) (e : Effect) : bool :=
  match e with
  | presignUpload n _ sz => bool_decide (n = filename) && bool_decide (sz = size)
  | _ => false
  end.

Fixpoint has_dot (s : string) : bool :=
  match s with
  | EmptyString => false
  | String c r => Ascii.eqb c "."%char || has_dot r
  end.

(** The place of a network call in an upload: presign, transfer, finalize. *)
Definition stage (e : Effect) : nat :=
  match e with
  | presignUpload _ _ _ => 1
  | xhrPost _ _ _ => 2
  | finalizeUpload _ _ _ _ => 3
  | onError _ | onUploadComplete _ => 0
  end.

End Upload.

(** ** src/components/FileList/FileList.tsx with the selection of the
       dashboard, unnamed/part_001 *)

Module Files.

Inductive FileFilter := all | docs | images | failed.

(** The state of [FileList], and the selection its parent [Dashboard] owns
    and passes down as [selectedFiles] / [onFileSelect] / [onFileDelete]. *)
Record State := mkState {
  selectedFiles : list Z;              (* Dashboard: [selectedFiles] *)
  files : list FileAsset.t;
  loading : bool;
  page : Z;
  totalPages : Z;
  error : string;
  filter_ : FileFilter;                (* the state cell [filter] *)
  pendingDeleteId : option Z;
  filesRef : list FileAsset.t;
  pageRef : Z;
  polling : bool                       (* the 5 s interval of the mount effect is set *)
}.

(** What the component asks of the backend. *)
Inductive Request :=
| listFiles (pageNum : Z)
| deleteFile (fileId : Z).

Definition set_selectedFiles (v : list Z) (s : State) : State :=
  {| selectedFiles := v; files := files s; loading := loading s; page := page s;
     totalPages := totalPages s; error := error s; filter_ := filter_ s;
     pendingDeleteId := pendingDeleteId s; filesRef := filesRef s;
     pageRef := pageRef s; polling := polling s |}.

Definition set_error (v : string) (s : State) : State :=
  {| selectedFiles := selectedFiles s; files := files s; loading := loading s;
     page := page s; totalPages := totalPages s; error := v; filter_ := filter_ s;
     pendingDeleteId := pendingDeleteId s; filesRef := filesRef s;
     pageRef := pageRef s; polling := polling s |}.

Definition set_pendingDeleteId (v : option Z) (s : State) : State :=
  {| selectedFiles := selectedFiles s; files := files s; loading := loading s;
     page := page s; totalPages := totalPages s; error := error s; filter_ := filter_ s;
     pendingDeleteId := v; filesRef := filesRef s;
     pageRef := pageRef s; polling := polling s |}.

Definition set_polling (v : bool) (s : State) : State :=
  {| selectedFiles := selectedFiles s; files := files s; loading := loading s;
     page := page s; totalPages := totalPages s; error := error s; filter_ := filter_ s;
     pendingDeleteId := pendingDeleteId s; filesRef := filesRef s;
     pageRef := pageRef s; polling := v |}.

(** [setFilter(f)], the click on one of the four filter buttons. *)
Definition setFilter (v : FileFilter) (s : State) : State :=
  {| selectedFiles := selectedFiles s; files := files s; loading := loading s;
     page := page s; totalPages := totalPages s; error := error s; filter_ := v;
     pendingDeleteId := pendingDeleteId s; filesRef := filesRef s;
     pageRef := pageRef s; polling := polling s |}.

(** The ids on display. *)
Definition listed (s : State) : list Z := FileAsset.id <$> files s.

(** [loadFiles(pageNum)], once [apiClient.listFiles] has settled. *)
Definition loadFiles (answer : FileListResponse.t + Api.AxiosError) (s : State) : State :=
  match answer with
  | inl response =>
      {| selectedFiles := selectedFiles s;
         files := FileListResponse.results response;
         loading := false;
         page := FileListResponse.page response;
         totalPages := FileListResponse.total_pages response;
         error := "";
         filter_ := filter_ s;
         pendingDeleteId := pendingDeleteId s;
         filesRef := FileListResponse.results response;
         pageRef := FileListResponse.page response;
         polling := polling s |}
  | inr err =>
      {| selectedFiles := selectedFiles s; files := files s; loading := false;
         page := page s; totalPages := totalPages s;
         error := Js.or_else (Some (Api.message err)) "Failed to load files";
         filter_ := filter_ s; pendingDeleteId := pendingDeleteId s;
         filesRef := filesRef s; pageRef := pageRef s; polling := polling s |}
  end.

(** [['processing', 'uploaded'].includes(f.status)] *)
Definition inFlight (f : FileAsset.t) : bool :=
  match FileAsset.status f with
  | FileAsset.processing | FileAsset.uploaded => true
  | _ => false
  end.

(** The mount effect: a first load, and the interval.  Its cleanup clears
    the interval. *)
Definition mount (s : State) : State * list Request :=
  (set_polling true s, [listFiles 1]).

Definition unmount (s : State) : State := set_polling false s.

(** One firing of the 5 s interval: the request it makes, if any. *)
Definition pollTick (s : State) : list Request :=
  if polling s && existsb inFlight (filesRef s) then [listFiles (pageRef s)] else [].

Inductive Kind := doc | image.

Definition extType (f : FileAsset.t) : Kind :=
  let ext := Upload.toLowerCase (FileAsset.file_type f) in
  if bool_decide (ext ∈ ["pdf"; "doc"; "docx"; "txt"]) then doc else image.

Definition visible (flt : FileFilter) (f : FileAsset.t) : bool :=
  match flt with
  | failed => match FileAsset.status f with FileAsset.failed => true | _ => false end
  | docs => match extType f with doc => true | image => false end
  | images => match extType f with image => true | doc => false end
  | all => true
  end.

Definition visibleFiles (s : State) : list FileAsset.t :=
  List.filter (visible (filter_ s)) (files s).

Definition handleSelectAll (s : State) : State :=
  if (length (selectedFiles s) =? length (visibleFiles s))%nat
  then set_selectedFiles [] s
  else set_selectedFiles (FileAsset.id <$> visibleFiles s) s.

Definition handleFileToggle (fileId : Z) (s : State) : State :=
  if bool_decide (fileId ∈ selectedFiles s)
  then set_selectedFiles (filter (fun id => id ≠ fileId) (selectedFiles s)) s
  else set_selectedFiles (selectedFiles s ++ [fileId]) s.

Definition requestDelete (fileId : Z) (s : State) : State :=
  set_pendingDeleteId (Some fileId) s.

(** Dashboard's [handleFileDelete]:
    [setSelectedFiles((prev) => prev.filter((id) => id !== fileId))] *)
Definition handleFileDelete (fileId : Z) (s : State) : State :=
  set_selectedFiles (filter (fun id => id ≠ fileId) (selectedFiles s)) s.

(** [confirmDelete(fileId)] with the answer to the DELETE and the answer to
    the reload that follows a successful one.  [loadFiles] catches its own
    failure, so [onFileDelete] runs whenever the DELETE succeeded. *)
Definition confirmDelete (fileId : Z)
    (deleted : unit + Api.AxiosError)
    (reload : FileListResponse.t + Api.AxiosError)
    (s : State) : State * list Request :=
  match deleted with
  | inl _ =>
      let s1 := loadFiles reload s in
      let s2 := handleFileDelete fileId s1 in
      (set_pendingDeleteId None s2, [deleteFile fileId; listFiles (page s)])
  | inr err =>
      let s1 := set_error (Js.or_else (Some (Api.message err)) "Failed to delete file") s in
      (set_pendingDeleteId None s1, [deleteFile fileId])
  end.

End Files.

(** ** The chat view: unnamed/part_000 (components/Chat/ChatInterface) *)

Module Chat.

(** The closure of one pseudo-streaming interval: the captured [fullText],
    [step] and [response], and the mutable [index]. *)
Record Reveal := mkReveal {
  fullText : Js.text;
  step : nat;
  index : nat;
  target : Z;                          (* [response.response.id] *)
  cited : list Citation.t              (* [response.citations || []] *)
}.

Inductive Level := log | error.

(** The component's state cells and refs, the interval table of [window],
    and the console. *)
Record State := mkState {
  messages : list Message.t;
  input : Js.text;
  loading : bool;
  currentConversationId : option Z;
  streamingIntervalRef : option positive;
  intervals : gmap positive Reveal;    (* live [setInterval] timers *)
  nextInterval : positive;             (* the id the next [setInterval] returns *)
  console : list (Level * string);
  mounted : bool
}.

(** [setMessages(f)]: the update the code asks for, applied to the cell.
    React applies it while the view is mounted and drops it once the view
    is gone; what is said below about [messages] is about a mounted view. *)
Definition setMessages (f : list Message.t -> list Message.t) (s : State) : State :=
  {| messages := f (messages s); input := input s; loading := loading s;
     currentConversationId := currentConversationId s;
     streamingIntervalRef := streamingIntervalRef s; intervals := intervals s;
     nextInterval := nextInterval s; console := console s; mounted := mounted s |}.

Definition setInput (v : Js.text) (s : State) : State :=
  {| messages := messages s; input := v; loading := loading s;
     currentConversationId := currentConversationId s;
     streamingIntervalRef := streamingIntervalRef s; intervals := intervals s;
     nextInterval := nextInterval s; console := console s; mounted := mounted s |}.

Definition setLoading (v : bool) (s : State) : State :=
  {| messages := messages s; input := input s; loading := v;
     currentConversationId := currentConversationId s;
     streamingIntervalRef := streamingIntervalRef s; intervals := intervals s;
     nextInterval := nextInterval s; console := console s; mounted := mounted s |}.

Definition setCurrentConversationId (v : option Z) (s : State) : State :=
  {| messages := messages s; input := input s; loading := loading s;
     currentConversationId := v;
     streamingIntervalRef := streamingIntervalRef s; intervals := intervals s;
     nextInterval := nextInterval s; console := console s; mounted := mounted s |}.

Definition set_streamingIntervalRef (v : option positive) (s : State) : State :=
  {| messages := messages s; input := input s; loading := loading s;
     currentConversationId := currentConversationId s;
     streamingIntervalRef := v; intervals := intervals s;
     nextInterval := nextInterval s; console := console s; mounted := mounted s |}.

Definition set_intervals (v : gmap positive Reveal) (s : State) : State :=
  {| messages := messages s; input := input s; loading := loading s;
     currentConversationId := currentConversationId s;
     streamingIntervalRef := streamingIntervalRef s; intervals := v;
     nextInterval := nextInterval s; console := console s; mounted := mounted s |}.

Definition set_mounted (v : bool) (s : State) : State :=
  {| messages := messages s; input := input s; loading := loading s;
     currentConversationId := currentConversationId s;
     streamingIntervalRef := streamingIntervalRef s; intervals := intervals s;
     nextInterval := nextInterval s; console := console s; mounted := v |}.

Definition print (l : Level) (label : string) (s : State) : State :=
  {| messages := messages s; input := input s; loading := loading s;
     currentConversationId := currentConversationId s;
     streamingIntervalRef := streamingIntervalRef s; intervals := intervals s;
     nextInterval := nextInterval s; console := console s ++ [(l, label)];
     mounted := mounted s |}.

(** [window.clearInterval] *)
Definition clearInterval (id : positive) (s : State) : State :=
  set_intervals (delete id (intervals s)) s.

(** [window.setInterval]: a fresh handle for the closure. *)
Definition setInterval (r : Reveal) (s : State) : positive * State :=
  let id := nextInterval s in
  (id,
   {| messages := messages s; input := input s; loading := loading s;
      currentConversationId := currentConversationId s;
      streamingIntervalRef := streamingIntervalRef s;
      intervals := <[id := r]> (intervals s);
      nextInterval := Pos.succ id; console := console s; mounted := mounted s |}).

Definition with_content (c : Js.text) (cs : option (list Citation.t)) (m : Message.t) : Message.t :=
  {| Message.id := Message.id m; Message.role := Message.role m;
     Message.content := c; Message.file_ids := Message.file_ids m;
     Message.citations := cs; Message.created_at := Message.created_at m |}.

(** [prev.map((m) => m.id === id ? { ...m, content, citations } : m)] *)
Definition patch (id : Z) (c : Js.text) (cs : list Citation.t) (prev : list Message.t)
  : list Message.t :=
  (fun m => if bool_decide (Message.id m = id) then with_content c (Some cs) m else m) <$> prev.

(** [prev.filter((m) => m.id !== id)] *)
Definition without (id : Z) (prev : list Message.t) : list Message.t :=
  filter (fun m => Message.id m ≠ id) prev.

Definition apology : Js.text := Js.lit "Sorry, I encountered an error. Please try again.".

(** [loadConversationHistory(convId)], once the GET has settled.  The
    payload of the two console calls is left out. *)
Definition loadConversationHistory (convId : Z)
    (answer : Conversation.t + Api.AxiosError) (s : State) : State :=
  let s := print log "[Chat] Loading conversation history:" s in
  match answer with
  | inl conversation =>
      let s := print log "[Chat] Conversation loaded:" s in
      let s := setMessages (fun _ => Conversation.messages conversation) s in
      setCurrentConversationId (Some convId) s
  | inr err =>
      print error "[Chat] Failed to load conversation history:" s
  end.

(** The effect on the prop [conversationId]: the id whose history it starts
    loading, if any, and the state after its synchronous part. *)
Definition conversationEffect (conversationId : option Z) (s : State) : option Z * State :=
  match conversationId with
  | Some c =>
      if negb (bool_decide (c = 0%Z))
         && negb (bool_decide (Some c = currentConversationId s))
      then (Some c, setCurrentConversationId (Some c) s)
      else (None, s)
  | None => (None, s)
  end.

(** What [handleSend] holds across its [await]. *)
Record Pending := mkPending {
  userMessage : Js.text;
  tempUserMessage : Message.t;
  sentConversationId : option Z;       (* [currentConversationId] of the render *)
  sentFileIds : option (list Z)
}.

(** [handleSend] up to the [await]: [None] when the guard returns early.
    [now] is [Date.now()] and [iso] is [new Date().toISOString()]. *)
Definition handleSend_begin (now : Z) (iso : string) (selectedFileIds : list Z)
    (s : State) : option (Pending * State) :=
  if negb (Js.nonempty (Js.trim (input s))) || loading s then None
  else
    let userMessage := Js.trim (input s) in
    let s := setInput [] s in
    let s := setLoading true s in
    let tempUserMessage :=
      {| Message.id := now; Message.role := Message.user;
         Message.content := userMessage; Message.file_ids := selectedFileIds;
         Message.citations := None; Message.created_at := iso |} in
    let s := setMessages (fun prev => prev ++ [tempUserMessage]) s in
    let s := print log "[Chat] Sending message" s in
    Some ({| userMessage := userMessage;
             tempUserMessage := tempUserMessage;
             sentConversationId := currentConversationId s;
             sentFileIds := if (0 <? length selectedFileIds)%nat
                            then Some selectedFileIds else None |}, s).

(** The closure with its [index] assigned. *)
Definition set_index (i : nat) (r : Reveal) : Reveal :=
  {| fullText := fullText r; step := step r; index := i;
     target := target r; cited := cited r |}.

(** One firing of interval [id]: nothing if the timer is not live. *)
Definition tick (id : positive) (s : State) : State :=
  match intervals s !! id with
  | None => s
  | Some r =>
      let index := Nat.min (length (fullText r)) (index r + step r) in
      let s := set_intervals (<[id := set_index index r]> (intervals s)) s in
      let partial := Js.slice0 index (fullText r) in
      let s := setMessages (patch (target r) partial (cited r)) s in
      match streamingIntervalRef s with
      | Some current =>
          if (length (fullText r) <=? index)%nat
          then set_streamingIntervalRef None (clearInterval current s)
          else s
      | None => s
      end
  end.

(** [handleSend] after [apiClient.sendMessage] resolved: the new state and
    the ids handed to [onConversationChange] ([notify] tells whether the
    parent passed that callback). *)
Definition handleSend_resolved (p : Pending) (response : ChatResponse.t)
    (notify : bool) (s : State) : State * list Z :=
  let changed :=
    negb (bool_decide (Some (ChatResponse.conversation_id response) = sentConversationId p)) in
  let s := if changed
           then setCurrentConversationId (Some (ChatResponse.conversation_id response)) s
           else s in
  let notified := if changed && notify
                  then [ChatResponse.conversation_id response] else [] in
  let reply := ChatResponse.response response in
  let citations := ChatResponse.citations response in
  let s := setMessages
             (fun prev =>
                let filtered := without (Message.id (tempUserMessage p)) prev in
                let assistantMsg := with_content [] (Some citations) reply in
                filtered ++ [ChatResponse.message response; assistantMsg]) s in
  let fullText := Message.content reply in
  let s :=
    if (length fullText =? 0)%nat then
      setMessages (patch (Message.id reply) fullText citations) s
    else
      let step := Nat.max 10 (length fullText / 30) in
      let s := match streamingIntervalRef s with
               | Some old => clearInterval old s
               | None => s
               end in
      let '(id, s) := setInterval {| fullText := fullText; step := step; index := 0;
                                     target := Message.id reply; cited := citations |} s in
      set_streamingIntervalRef (Some id) s in
  (setLoading false s, notified).

(** [handleSend] after [apiClient.sendMessage] rejected.  [now] and [iso]
    are the clock readings of the [catch] block. *)
Definition handleSend_rejected (p : Pending) (err : Api.AxiosError)
    (now : Z) (iso : string) (s : State) : State :=
  let s := print error "[Chat] Error sending message" s in
  let errorMessage :=
    {| Message.id := now; Message.role := Message.assistant;
       Message.content := apology; Message.file_ids := [];
       Message.citations := None; Message.created_at := iso |} in
  let s := setMessages
             (fun prev =>
                let filtered := without (Message.id (tempUserMessage p)) prev in
                filtered ++ [errorMessage]) s in
  setLoading false s.

(** A whole [handleSend] with nothing else scheduled in between. *)
Definition handleSend (now : Z) (iso : string) (selectedFileIds : list Z) (notify : bool)
    (answer : ChatResponse.t + Api.AxiosError) (now' : Z) (iso' : string)
    (s : State) : State * list Z :=
  match handleSend_begin now iso selectedFileIds s with
  | None => (s, [])
  | Some (p, s1) =>
      match answer with
      | inl response => handleSend_resolved p response notify s1
      | inr err => (handleSend_rejected p err now' iso' s1, [])
      end
  end.

(** Teardown of the view.  The component registers two effects (scrolling
    on [messages], loading on [conversationId]); neither returns a cleanup
    function, so no code of the component runs at teardown. *)
Definition unmount (s : State) : State := set_mounted false s.

(** [n] firings of interval [id]. *)
Fixpoint ticks (n : nat) (id : positive) (s : State) : State :=
  match n with
  | O => s
  | S n => ticks n id (tick id s)
  end.

(** The ceiling of [a / b]. *)
Definition ceil_div (a b : nat) : nat := (a + b - 1) / b.

(** The view as it mounts: the initial values of its [useState] and
    [useRef] calls, no reveal timer, and the handle [next] that the window
    will give out first. *)
Definition initial (conversationId : option Z) (next : positive) : State :=
  {| messages := []; input := []; loading := false;
     currentConversationId := conversationId;
     streamingIntervalRef := None; intervals := ∅; nextInterval := next;
     console := []; mounted := true |}.

(** The reveal timers are in order: a timer is live exactly when the ref
    holds its handle, and that handle is one the window has given out. *)
Definition tidy (s : State) : Prop :=
  (forall t, is_Some (intervals s !! t) <-> streamingIntervalRef s = Some t) /\
  (forall t, streamingIntervalRef s = Some t -> (t < nextInterval s)%positive).

(** Whatever can happen to the view: typing, the three parts of a send
    (with any answer and any clock), a firing of any timer handle, a history
    load settling, the effect on the prop, teardown. *)
Inductive event : State -> State -> Prop :=
| on_type (v : Js.text) (s : State) : event s (setInput v s)
| on_submit (now : Z) (iso : string) (selected : list Z) (s : State) (p : Pending) (s1 : State) :
    handleSend_begin now iso selected s = Some (p, s1) -> event s s1
| on_answer (p : Pending) (response : ChatResponse.t) (notify : bool) (s : State) :
    event s (fst (handleSend_resolved p response notify s))
| on_failure (p : Pending) (err : Api.AxiosError) (now : Z) (iso : string) (s : State) :
    event s (handleSend_rejected p err now iso s)
| on_tick (t : positive) (s : State) : event s (tick t s)
| on_history (convId : Z) (answer : Conversation.t + Api.AxiosError) (s : State) :
    event s (loadConversationHistory convId answer s)
| on_prop (conversationId : option Z) (s : State) :
    event s (snd (conversationEffect conversationId s))
| on_unmount (s : State) : event s (unmount s).

End Chat.

(** ** src/services/api.ts: the body of the chat request *)

Module Endpoints.

(** The body [apiClient.sendMessage] posts to [/chat/]. *)
Record ChatRequest := mkChatRequest {
  message : Js.text;
  conversation_id : option Z;
  file_ids : list Z
}.

(** [apiClient.sendMessage(message, conversationId, fileIds)]:
    [file_ids: fileIds || []], where an array, empty or not, is truthy. *)
Definition sendMessage (message : Js.text) (conversationId : option Z)
    (fileIds : option (list Z)) : ChatRequest :=
  {| message := message; conversation_id := conversationId;
     file_ids := default [] fileIds |}.

(** The call [handleSend] makes with what it holds at its [await]. *)
Definition sent (p : Chat.Pending) : ChatRequest :=
  sendMessage (Chat.userMessage p) (Chat.sentConversationId p) (Chat.sentFileIds p).

End Endpoints.

(** ** src/components/FileList/FileList.tsx: renaming a file *)

Module Rename.

(** The cells [renamingId] and [renameValue] of [FileList]; the value is
    what is in the rename box. *)
Record Editor := mkEditor {
  renamingId : option Z;
  renameValue : Js.text
}.

Inductive Request :=
| updateFile (fileId : Z) (filename : Js.text)   (* PATCH /files/:id/update/ *)
| listFiles (pageNum : Z).

Definition closed : Editor := {| renamingId := None; renameValue := [] |}.

(** [submitRename(fileId)] with the answer to the PATCH and the answer to
    the reload that follows a successful one.  The guard returns before the
    [try], so a blank name leaves the editor open. *)
Definition submitRename (fileId : Z)
    (updated : FileAsset.t + Api.AxiosError)
    (reload : FileListResponse.t + Api.AxiosError)
    (e : Editor) (s : Files.State) : Editor * Files.State * list Request :=
  if negb (Js.nonempty (Js.trim (renameValue e))) then (e, s, [])
  else
    let patch := updateFile fileId (Js.trim (renameValue e)) in
    match updated with
    | inl _ => (closed, Files.loadFiles reload s, [patch; listFiles (Files.page s)])
    | inr err =>
        (closed,
         Files.set_error (Js.or_else (Some (Api.message err)) "Failed to rename file") s,
         [patch])
    end.

End Rename.

(** ** src/components/FileList/FileList.tsx: the list over its life *)

Module Listing.

(** The list as it mounts: the initial values of its [useState] and
    [useRef] calls, under a dashboard that has nothing selected yet. *)
Definition initial : Files.State :=
  {| Files.selectedFiles := []; Files.files := []; Files.loading := true;
     Files.page := 1; Files.totalPages := 1; Files.error := "";
     Files.filter_ := Files.all; Files.pendingDeleteId := None;
     Files.filesRef := []; Files.pageRef := 1; Files.polling := false |}.

(** Whatever can happen to the list between two renders: the mount effect
    and its cleanup, a load settling (the first load, a page button, the
    poll, the dashboard's refresh), the filter buttons, the check boxes,
    the delete dialog and the rename editor, with any answer of the
    backend. *)
Inductive event : Files.State -> Files.State -> Prop :=
| on_mount (s : Files.State) : event s (fst (Files.mount s))
| on_unmount (s : Files.State) : event s (Files.unmount s)
| on_load (answer : FileListResponse.t + Api.AxiosError) (s : Files.State) :
    event s (Files.loadFiles answer s)
| on_filter (flt : Files.FileFilter) (s : Files.State) : event s (Files.setFilter flt s)
| on_select_all (s : Files.State) : event s (Files.handleSelectAll s)
| on_toggle (fileId : Z) (s : Files.State) : event s (Files.handleFileToggle fileId s)
| on_request_delete (fileId : Z) (s : Files.State) : event s (Files.requestDelete fileId s)
| on_confirm_delete (fileId : Z) (deleted : unit + Api.AxiosError)
    (reload : FileListResponse.t + Api.AxiosError) (s : Files.State) :
    event s (fst (Files.confirmDelete fileId deleted reload s))
| on_rename (fileId : Z) (updated : FileAsset.t + Api.AxiosError)
    (reload : FileListResponse.t + Api.AxiosError) (e : Rename.Editor) (s : Files.State) :
    event s (snd (fst (Rename.submitRename fileId updated reload e s))).

(** [files.some((f) => ['processing', 'uploaded'].includes(f.status))],
    the flag that puts the notice about files being processed on screen. *)
Definition hasInFlight (s : Files.State) : bool := existsb Files.inFlight (Files.files s).

End Listing.

(** ** The dashboard (unnamed/part_001): the two banners and their timers *)

Module Dashboard.

(** What a pending [setTimeout] of the dashboard will do. *)
Inductive Timer :=
| clearSuccess      (* after 3000 ms: [setUploadSuccess('')] *)
| clearError        (* after 5000 ms: [setUploadError('')] *)
| refreshList.      (* after 500 ms: [fileListRef.current?.refresh()], the list
                      being mounted under the dashboard *)

Record State := mkState {
  uploadError : string;
  uploadSuccess : string;
  pending : list Timer        (* timers set and not yet fired *)
}.

Definition initial : State :=
  {| uploadError := ""; uploadSuccess := ""; pending := [] |}.

Definition quote : string := String (ascii_of_nat 34) EmptyString.

(** [handleUploadComplete(file)] *)
Definition handleUploadComplete (file : FileAsset.t) (s : State) : State :=
  {| uploadSuccess :=
       "File " +:+ quote +:+ FileAsset.filename file +:+ quote +:+ " uploaded successfully.";
     uploadError := "";
     pending := pending s ++ [clearSuccess; refreshList] |}.

(** [handleUploadError(error)] *)
Definition handleUploadError (error : string) (s : State) : State :=
  {| uploadError := error; uploadSuccess := "";
     pending := pending s ++ [clearError] |}.

(** The callback of a timer: the new banners, and whether the file list is
    asked to refresh. *)
Definition run (t : Timer) (s : State) : State * nat :=
  match t with
  | clearSuccess =>
      ({| uploadError := uploadError s; uploadSuccess := ""; pending := pending s |}, 0)
  | clearError =>
      ({| uploadError := ""; uploadSuccess := uploadSuccess s; pending := pending s |}, 0)
  | refreshList => (s, 1)
  end.

Inductive Event :=
| UploadComplete (file : FileAsset.t)
| UploadError (error : string)
| Fire (i : nat).            (* the [i]-th pending timer fires *)

(** One event: the state after it and the number of refreshes it asks of
    the file list.  Timers may fire in any order. *)
Definition step (ev : Event) (s : State) : State * nat :=
  match ev with
  | UploadComplete file => (handleUploadComplete file s, 0)
  | UploadError error => (handleUploadError error s, 0)
  | Fire i =>
      match pending s !! i with
      | Some t =>
          run t {| uploadError := uploadError s; uploadSuccess := uploadSuccess s;
                   pending := delete i (pending s) |}
      | None => (s, 0)
      end
  end.

(** A sequence of events, with the refreshes counted. *)
Fixpoint steps (evs : list Event) (s : State) : State * nat :=
  match evs with
  | [] => (s, 0)
  | ev :: evs =>
      let '(s1, n1) := step ev s in
      let '(s2, n2) := steps evs s1 in
      (s2, n1 + n2)
  end.

(** The file list's [refresh] handle: [loadFiles(pageRef.current)]. *)
Definition refresh (fl : Files.State) : list Files.Request :=
  [Files.listFiles (Files.pageRef fl)].

Definition is_refresh (t : Timer) : bool :=
  match t with refreshList => true | _ => false end.

Definition is_complete (ev : Event) : bool :=
  match ev with UploadComplete _ => true | _ => false end.

(** The refresh timers still to fire, and the uploads that completed. *)
Definition refreshes_pending (s : State) : nat := length (List.filter is_refresh (pending s)).

Definition completed (evs : list Event) : nat := length (List.filter is_complete evs).

End Dashboard.

(** ** The credential keys across the client and the session *)

Module Credentials.





End Credentials.

(** ** Concrete runs used below *)

Module Scenario.

(** A backend that accepts the header [Bearer fresh] only, a refresh
    endpoint that hands out [fresh], and one that is down. *)
Definition expired : Api.Response := {| Api.status := 401; Api.data := "token expired" |}.

Definition listing : Api.Response := {| Api.status := 200; Api.data := "[]" |}.

Definition net (_ : list Api.Call) (cfg : Api.Config) : Api.Reply :=
  if bool_decide (Api.Authorization cfg = Some "Bearer fresh")
  then Api.Ok listing
  else Api.Fail (Some expired) "Request failed with status code 401".

Definition refresh_up (_ : list Api.Call) (_ _ : string) : string + Api.AxiosError :=
  inl "fresh".

Definition network_error : Api.AxiosError :=
  {| Api.config := {| Api.method := "post";
                      Api.url := "http://localhost:8000/api/auth/refresh/";
                      Api.body := "r1"; Api.Authorization := None; Api._retry := false |};
     Api.response := None;
     Api.message := "Network Error" |}.

Definition refresh_down (_ : list Api.Call) (_ _ : string) : string + Api.AxiosError :=
  inr network_error.

Definition getFiles : Api.Config :=
  {| Api.method := "get"; Api.url := "/files/"; Api.body := "";
     Api.Authorization := None; Api._retry := false |}.

Definition browser : Api.Browser :=
  {| Api.localStorage :=
       <["access_token" := "stale"]> (<["refresh_token" := "r1"]> (<["user" := "u"]> ∅));
     Api.href := "/";
     Api.wire := [] |}.

(** A backend that fails every request with status 500. *)
Definition failing : Api.Response := {| Api.status := 500; Api.data := "internal error" |}.

Definition net_500 (_ : list Api.Call) (_ : Api.Config) : Api.Reply :=
  Api.Fail (Some failing) "Request failed with status code 500".

(** The session: one account, and the serialisation of its profile. *)
Definition alice : User.t :=
  {| User.id := 1; User.username := "alice"; User.email := "alice@example.org";
     User.first_name := "Alice"; User.last_name := "Liddell" |}.

Definition quoted (s : string) : string :=
  String (ascii_of_nat 34) (s +:+ String (ascii_of_nat 34) EmptyString).

Definition alice_json : string :=
  "{" +:+ quoted "id" +:+ ":1,"
      +:+ quoted "username" +:+ ":" +:+ quoted "alice" +:+ ","
      +:+ quoted "email" +:+ ":" +:+ quoted "alice@example.org" +:+ ","
      +:+ quoted "first_name" +:+ ":" +:+ quoted "Alice" +:+ ","
      +:+ quoted "last_name" +:+ ":" +:+ quoted "Liddell" +:+ "}".

Definition stringify (_ : User.t) : string := alice_json.

Definition parse (s : string) : option User.t :=
  if String.eqb s alice_json then Some alice else None.

Definition unauthorized : Api.AxiosError :=
  {| Api.config := {| Api.method := "post"; Api.url := "/auth/login/"; Api.body := "";
                      Api.Authorization := None; Api._retry := true |};
     Api.response := Some expired;
     Api.message := "Request failed with status code 401" |}.

Definition accounts (_ : list Auth.ApiCall) (c : Auth.ApiCall)
  : AuthResponse.t + Api.AxiosError :=
  match c with
  | Auth.api_login "alice" "pw" =>
      inl {| AuthResponse.user := alice;
             AuthResponse.tokens := {| AuthTokens.access := "a1"; AuthTokens.refresh := "r1" |} |}
  | _ => inr unauthorized
  end.

(** A backend that accepts a login and hands out an empty access token. *)
Definition token_less (_ : list Auth.ApiCall) (_ : Auth.ApiCall)
  : AuthResponse.t + Api.AxiosError :=
  inl {| AuthResponse.user := alice;
         AuthResponse.tokens := {| AuthTokens.access := ""; AuthTokens.refresh := "r1" |} |}.

Definition signed_out : Auth.World :=
  {| Auth.localStorage := ∅; Auth.calls := [];
     Auth.state := {| Auth.user := None; Auth.isAuthenticated := false |} |}.

(** Uploads: a 20 MiB video, a small video, a small PDF, and a storage
    service that takes everything. *)
Definition big_video : Upload.File :=
  {| Upload.name := "clip.mp4"; Upload.type := "video/mp4"; Upload.size := 20 * 1024 * 1024 |}.

Definition small_video : Upload.File :=
  {| Upload.name := "clip.mp4"; Upload.type := "video/mp4"; Upload.size := 4096 |}.

Definition big_pdf : Upload.File :=
  {| Upload.name := "scan.pdf"; Upload.type := "application/pdf";
     Upload.size := 10 * 1024 * 1024 + 1 |}.

Definition presigned : PresignResponse.t + Api.AxiosError :=
  inl {| PresignResponse.url := "https://bucket.example/upload";
         PresignResponse.fields := [("key", "uploads/1")];
         PresignResponse.s3_key := "uploads/1" |}.

Definition stored_asset : FileAsset.t + Api.AxiosError :=
  inl {| FileAsset.id := 1; FileAsset.filename := "clip.mp4"; FileAsset.file_type := "mp4";
         FileAsset.size := 4096; FileAsset.uploaded_at := "2024-01-01T00:00:00Z";
         FileAsset.status := FileAsset.uploaded;
         FileAsset.ingestion_status := FileAsset.not_started;
         FileAsset.deletion_failed_flag := false; FileAsset.metadata := "{}" |}.

Definition idle : Upload.State := {| Upload.uploading := false; Upload.progress := 0 |}.

(** The file list: two files on page 1, both selected, and a third file
    on page 2. *)
Definition asset (id : Z) (filename : string) (st : FileAsset.Status) : FileAsset.t :=
  {| FileAsset.id := id; FileAsset.filename := filename; FileAsset.file_type := "pdf";
     FileAsset.size := 4096; FileAsset.uploaded_at := "2024-01-01T00:00:00Z";
     FileAsset.status := st; FileAsset.ingestion_status := FileAsset.complete;
     FileAsset.deletion_failed_flag := false; FileAsset.metadata := "{}" |}.

Definition page1 : Files.State :=
  {| Files.selectedFiles := [1%Z; 2%Z];
     Files.files := [asset 1 "a.pdf" FileAsset.ready; asset 2 "b.pdf" FileAsset.ready];
     Files.loading := false; Files.page := 1; Files.totalPages := 2;
     Files.error := ""; Files.filter_ := Files.all; Files.pendingDeleteId := None;
     Files.filesRef := [asset 1 "a.pdf" FileAsset.ready; asset 2 "b.pdf" FileAsset.ready];
     Files.pageRef := 1; Files.polling := true |}.

Definition page2 : FileListResponse.t + Api.AxiosError :=
  inl {| FileListResponse.results := [asset 3 "c.pdf" FileAsset.ready];
         FileListResponse.count := 3; FileListResponse.page := 2;
         FileListResponse.page_size := 2; FileListResponse.total_pages := 2 |}.

(** Page 1 as the backend lists it once file 1 is deleted and file 2 has
    been removed from another session. *)
Definition page1_emptied : FileListResponse.t + Api.AxiosError :=
  inl {| FileListResponse.results := [asset 3 "c.pdf" FileAsset.ready];
         FileListResponse.count := 1; FileListResponse.page := 1;
         FileListResponse.page_size := 2; FileListResponse.total_pages := 1 |}.

(** Page 1 as the backend lists it once file 1 is deleted. *)
Definition page1_after_delete : FileListResponse.t + Api.AxiosError :=
  inl {| FileListResponse.results := [asset 2 "b.pdf" FileAsset.ready];
         FileListResponse.count := 2; FileListResponse.page := 1;
         FileListResponse.page_size := 2; FileListResponse.total_pages := 1 |}.

(** Page 3, with a file the backend is still processing. *)
Definition page3 : FileListResponse.t + Api.AxiosError :=
  inl {| FileListResponse.results := [asset 4 "d.pdf" FileAsset.processing];
         FileListResponse.count := 5; FileListResponse.page := 3;
         FileListResponse.page_size := 2; FileListResponse.total_pages := 3 |}.

(** The chat: an empty conversation with a question typed in, the clock
    readings of a send, and the answers of the backend. *)
Definition typed : Chat.State :=
  {| Chat.messages := []; Chat.input := Js.lit "  What is in b.pdf? ";
     Chat.loading := false; Chat.currentConversationId := None;
     Chat.streamingIntervalRef := None; Chat.intervals := ∅;
     Chat.nextInterval := 1%positive; Chat.console := []; Chat.mounted := true |}.

Definition t_send : Z := 1700000000000.
Definition t_fail : Z := 1700000000450.
Definition iso_send : string := "2023-11-14T22:13:20.000Z".
Definition iso_fail : string := "2023-11-14T22:13:20.450Z".

Definition source : Citation.t :=
  {| Citation.filename := "b.pdf"; Citation.page_number := Some 2%Z |}.

(** An answer of 25 characters: three ticks of 10 reveal it. *)
Definition answered (user_id reply_id : Z) : ChatResponse.t :=
  {| ChatResponse.conversation_id := 42;
     ChatResponse.message :=
       {| Message.id := user_id; Message.role := Message.user;
          Message.content := Js.lit "What is in b.pdf?"; Message.file_ids := [2%Z];
          Message.citations := None; Message.created_at := iso_send |};
     ChatResponse.response :=
       {| Message.id := reply_id; Message.role := Message.assistant;
          Message.content := Js.lit "It lists the open issues."; Message.file_ids := [];
          Message.citations := None; Message.created_at := iso_fail |};
     ChatResponse.citations := [source] |}.


(** The same send at its [await]: what it holds, and the state it left. *)
Definition pending : Chat.Pending :=
  {| Chat.userMessage := Js.lit "What is in b.pdf?";
     Chat.tempUserMessage :=
       {| Message.id := t_send; Message.role := Message.user;
          Message.content := Js.lit "What is in b.pdf?"; Message.file_ids := [2%Z];
          Message.citations := None; Message.created_at := iso_send |};
     Chat.sentConversationId := None;
     Chat.sentFileIds := Some [2%Z] |}.

Definition awaiting : Chat.State :=
  {| Chat.messages := [Chat.tempUserMessage pending]; Chat.input := [];
     Chat.loading := true; Chat.currentConversationId := None;
     Chat.streamingIntervalRef := None; Chat.intervals := ∅;
     Chat.nextInterval := 1%positive;
     Chat.console := [(Chat.log, "[Chat] Sending message")]; Chat.mounted := true |}.

(** The first answer after one tick of its reveal, the reply as it is
    shown then, and a second question typed in at that moment. *)
Definition cut_off : Chat.State :=
  Chat.tick 1 (fst (Chat.handleSend_resolved pending (answered 7 8) true awaiting)).

Definition cut_reply : Message.t :=
  {| Message.id := 8; Message.role := Message.assistant;
     Message.content := Js.lit "It lists t"; Message.file_ids := [];
     Message.citations := Some [source]; Message.created_at := iso_fail |}.

Definition asked_again : Chat.State := Chat.setInput (Js.lit "And in c.pdf?") cut_off.

(** A photo whose name has two dots and an upper-case extension. *)
Definition photo : Upload.File :=
  {| Upload.name := "holiday.v2.JPG"; Upload.type := "image/jpeg"; Upload.size := 4096 |}.

(** A session whose stored profile is cut short. *)
Definition torn_profile : Auth.World :=
  {| Auth.localStorage :=
       <["access_token" := "a1"]> (<["refresh_token" := "r1"]> (<["user" := "{"]> ∅));
     Auth.calls := [];
     Auth.state := {| Auth.user := None; Auth.isAuthenticated := false |} |}.

End Scenario.

(** * Properties *)

(** ** JavaScript truthiness and the storage *)

Lemma truthy_Some (s : string) : Js.truthy (Some s) = true <-> s <> "".
Proof. destruct s; simpl; split; congruence. Qed.

Lemma truthy_true (v : option string) :
  Js.truthy v = true <-> exists s, v = Some s /\ s <> "".
Proof.
  destruct v as [s|]; simpl.
  - rewrite (truthy_Some s). split; [eauto | intros (s' & [= <-] & H); exact H].
  - split; [discriminate | intros (s & H & _); discriminate].
Qed.

(** *** Text *)

Lemma nonempty_true (t : Js.text) : Js.nonempty t = true <-> t <> [].
Proof. destruct t; simpl; split; congruence. Qed.

(** [trimStart] drops white space from the front, and nothing else. *)
Lemma trimStart_suffix (t : Js.text) :
  exists l, t = l ++ Js.trimStart t /\ Forall (fun u => Js.is_white_space u = true) l.
Proof.
  induction t as [|u t IH].
  - exists []. split; [reflexivity | constructor].
  - simpl. destruct (Js.is_white_space u) eqn:Hu.
    + destruct IH as (l & Ht & Hl). exists (u :: l). split.
      * simpl. f_equal. exact Ht.
      * constructor; assumption.
    + exists []. split; [reflexivity | constructor].
Qed.

Lemma trimStart_head (t : Js.text) (u : N) :
  head (Js.trimStart t) = Some u -> Js.is_white_space u = false.
Proof.
  induction t as [|v t IH]; [discriminate|].
  simpl. destruct (Js.is_white_space v) eqn:Hv; [exact IH|].
  intros [= <-]. exact Hv.
Qed.

Lemma trimEnd_prefix (t : Js.text) :
  exists r, t = Js.trimEnd t ++ r /\ Forall (fun u => Js.is_white_space u = true) r.
Proof.
  destruct (trimStart_suffix (reverse t)) as (l & Ht & Hl).
  exists (reverse l). split; [|apply Forall_reverse; exact Hl].
  unfold Js.trimEnd. rewrite <- reverse_app, <- Ht, reverse_involutive. reflexivity.
Qed.

Lemma trimEnd_last (t : Js.text) (u : N) :
  last (Js.trimEnd t) = Some u -> Js.is_white_space u = false.
Proof. unfold Js.trimEnd. rewrite last_reverse. apply trimStart_head. Qed.

(** [trim] gives the text between the white space at the two ends: what is
    cut off on either side is white space, and what is left neither begins
    nor ends with white space. *)
Lemma trim_spec (t : Js.text) :
  (exists l r, t = l ++ Js.trim t ++ r
               /\ Forall (fun u => Js.is_white_space u = true) l
               /\ Forall (fun u => Js.is_white_space u = true) r)
  /\ (forall u, head (Js.trim t) = Some u -> Js.is_white_space u = false)
  /\ (forall u, last (Js.trim t) = Some u -> Js.is_white_space u = false).
Proof.
  unfold Js.trim.
  destruct (trimStart_suffix t) as (l & Ht & Hl).
  destruct (trimEnd_prefix (Js.trimStart t)) as (r & Hv & Hr).
  split; [|split].
  - exists l, r. split; [|split; assumption]. rewrite <- Hv. exact Ht.
  - intros u Hu.
    destruct (Js.trimEnd (Js.trimStart t)) as [|u' v'] eqn:Hcut; [discriminate|].
    injection Hu as ->. apply (trimStart_head t). rewrite Hv. reflexivity.
  - apply trimEnd_last.
Qed.

Lemma trim_idem (t : Js.text) : Js.trim (Js.trim t) = Js.trim t.
Proof.
  destruct (trim_spec t) as (_ & Hh & Hl).
  assert (Hs : forall v : Js.text,
            (forall u, head v = Some u -> Js.is_white_space u = false) ->
            Js.trimStart v = v).
  { intros [|u v] H; [reflexivity|]. simpl. rewrite (H u eq_refl). reflexivity. }
  unfold Js.trim at 1. rewrite (Hs _ Hh). unfold Js.trimEnd.
  rewrite Hs; [apply reverse_involutive|].
  intros u. rewrite head_reverse. apply Hl.
Qed.

(** *** The storage *)

Lemma get_set_eq k v st : Storage.getItem k (Storage.setItem k v st) = Some v.
Proof. apply lookup_insert_eq. Qed.

Lemma get_set_ne k k' v st :
  k <> k' -> Storage.getItem k' (Storage.setItem k v st) = Storage.getItem k' st.
Proof. intros H. unfold Storage.getItem, Storage.setItem. by rewrite lookup_insert_ne. Qed.

Lemma get_remove_eq k st : Storage.getItem k (Storage.removeItem k st) = None.
Proof. apply lookup_delete_eq. Qed.

Lemma get_remove_ne k k' st :
  k <> k' -> Storage.getItem k' (Storage.removeItem k st) = Storage.getItem k' st.
Proof. intros H. unfold Storage.getItem, Storage.removeItem. by rewrite lookup_delete_ne. Qed.

(** ** The authenticated client *)

Section ApiFacts.

Import Api.

Variable VITE_API_BASE_URL : option string.
Variable net : list Call -> Config -> Reply.
Variable refresh_net : list Call -> string -> string -> string + AxiosError.

Local Abbreviation client := (Api.client VITE_API_BASE_URL net refresh_net).
Local Abbreviation responseError := (Api.responseError VITE_API_BASE_URL refresh_net).
Local Abbreviation endpoint := (Api.API_BASE_URL VITE_API_BASE_URL +:+ "/auth/refresh/").

Lemma requestInterceptor_retry cfg b : _retry (requestInterceptor cfg b) = _retry cfg.
Proof.
  unfold requestInterceptor.
  destruct (Storage.getItem _ _) as [[|a s]|]; reflexivity.
Qed.

(** A failure of a request that carries the mark is handed on as it is. *)
Lemma responseError_retried reissue e b :
  _retry (config e) = true -> responseError reissue e b = Some (Rejected e, b).
Proof.
  intros H. unfold Api.responseError. cbv zeta.
  destruct (response e) as [r|]; [|reflexivity].
  rewrite H, andb_false_r. reflexivity.
Qed.

(** So is every failure that is not a 401. *)
Lemma responseError_other reissue e b :
  (forall r, response e = Some r -> status r <> 401%Z) ->
  responseError reissue e b = Some (Rejected e, b).
Proof.
  intros H. unfold Api.responseError. cbv zeta.
  destruct (response e) as [r|] eqn:Hr; [|reflexivity].
  rewrite bool_decide_eq_false_2 by (apply H; reflexivity). reflexivity.
Qed.

(** A marked request is sent once and its result is the caller's. *)
Lemma client_retried n cfg b :
  _retry cfg = true ->
  let sent := requestInterceptor cfg b in
  client (S n) cfg b = Some (plain sent (net (wire b) sent), record (Send sent) b).
Proof.
  intros H sent. simpl. fold sent.
  destruct (net (wire b) sent) as [r|r msg]; [reflexivity|].
  rewrite responseError_retried; [reflexivity|].
  simpl. unfold sent. rewrite requestInterceptor_retry. exact H.
Qed.

(** The token the refresh stored is the one the request interceptor finds,
    so the retried request leaves with the header the response interceptor
    gave it. *)
Lemma requestInterceptor_refreshed access cfg b :
  localStorage b !! "access_token" = Some access ->
  requestInterceptor (set_Authorization ("Bearer " +:+ access) cfg) b
  = set_Authorization ("Bearer " +:+ access) cfg.
Proof.
  intros H. unfold requestInterceptor, Storage.getItem. rewrite H.
  destruct access; reflexivity.
Qed.

Lemma refresh_calls_app l c :
  refresh_calls (l ++ [c]) = (refresh_calls l + (if is_refresh c then 1 else 0))%nat.
Proof.
  unfold refresh_calls. rewrite List.filter_app, length_app. simpl.
  destruct (is_refresh c); reflexivity.
Qed.

Lemma send_calls_app l c :
  send_calls (l ++ [c]) = (send_calls l + (if is_send c then 1 else 0))%nat.
Proof.
  unfold send_calls. rewrite List.filter_app, length_app. simpl.
  destruct (is_send c); reflexivity.
Qed.

Lemma client_ok n cfg b r :
  let sent := requestInterceptor cfg b in
  net (wire b) sent = Ok r ->
  client (S n) cfg b = Some (Resolved r, record (Send sent) b).
Proof. intros sent H. simpl. fold sent. rewrite H. reflexivity. Qed.

(** A failed request goes to the interceptor, which gets the instance with
    one unit of fuel less. *)
Lemma client_failed n cfg b r msg :
  let sent := requestInterceptor cfg b in
  net (wire b) sent = Fail r msg ->
  client (S n) cfg b
  = responseError (client n) {| config := sent; response := r; message := msg |}
      (record (Send sent) b).
Proof. intros sent H. simpl. fold sent. rewrite H. reflexivity. Qed.

(** The three branches of the interceptor on an unmarked 401. *)
Lemma responseError_401 reissue e r b :
  response e = Some r -> status r = 401%Z -> _retry (config e) = false ->
  responseError reissue e b
  = match Storage.getItem "refresh_token" (localStorage b) with
    | Some (String _ _ as token) =>
        let b1 := record (Refresh endpoint token) b in
        match refresh_net (wire b) endpoint token with
        | inl access =>
            reissue (set_Authorization ("Bearer " +:+ access) (set_retry (config e)))
              (with_storage (Storage.setItem "access_token" access) b1)
        | inr refreshError =>
            Some (Rejected refreshError,
                  with_href "/login"
                    (with_storage (Storage.removeItem "user")
                       (with_storage (Storage.removeItem "refresh_token")
                          (with_storage (Storage.removeItem "access_token") b1))))
        end
    | _ => Some (Rejected {| config := set_retry (config e); response := Some r;
                             message := message e |}, b)
    end.
Proof.
  intros Hr Hs Hm. unfold Api.responseError. cbv zeta. rewrite Hr, Hm.
  rewrite bool_decide_eq_true_2 by exact Hs. reflexivity.
Qed.

#[local] Arguments Api.client : simpl never.

Lemma responseError_ext reissue1 reissue2 e b :
  (forall cfg b', _retry cfg = true -> reissue1 cfg b' = reissue2 cfg b') ->
  responseError reissue1 e b = responseError reissue2 e b.
Proof.
  intros H. unfold Api.responseError. cbv zeta.
  destruct (response e) as [r|]; [|reflexivity].
  destruct (bool_decide _ && _); [|reflexivity].
  destruct (Storage.getItem _ _) as [[|a t]|]; try reflexivity.
  destruct (refresh_net _ _ _); [|reflexivity].
  apply H. reflexivity.
Qed.

Lemma responseError_total reissue e b :
  (forall cfg b', _retry cfg = true -> is_Some (reissue cfg b')) ->
  is_Some (responseError reissue e b).
Proof.
  intros H. unfold Api.responseError. cbv zeta.
  destruct (response e) as [r|]; [|eauto].
  destruct (bool_decide _ && _); [|eauto].
  destruct (Storage.getItem _ _) as [[|a t]|]; eauto.
  destruct (refresh_net _ _ _); eauto.
Qed.

(** Two units of fuel are enough for every request: the instance calls
    itself at most once, for the marked request. *)
Lemma client_fuel n cfg b :
  client (2 + n) cfg b = client 2 cfg b /\ is_Some (client 2 cfg b).
Proof.
  change (2 + n)%nat with (S (S n)).
  destruct (net (wire b) (requestInterceptor cfg b)) as [r|r msg] eqn:Hnet.
  - rewrite !(client_ok _ cfg b r Hnet). eauto.
  - rewrite !(client_failed _ cfg b r msg Hnet). split.
    + apply responseError_ext. intros c b' Hc.
      rewrite (client_retried n c b' Hc), (client_retried 0 c b' Hc). reflexivity.
    + apply responseError_total. intros c b' Hc.
      rewrite (client_retried 0 c b' Hc). eauto.
Qed.

(** No request makes more than one refresh call, whatever the backend
    answers. *)
Lemma responseError_bound reissue e b out b' :
  (forall cfg b0 out0 b0', _retry cfg = true -> reissue cfg b0 = Some (out0, b0') ->
     refresh_calls (wire b0') = refresh_calls (wire b0)) ->
  responseError reissue e b = Some (out, b') ->
  (refresh_calls (wire b') <= S (refresh_calls (wire b)))%nat.
Proof.
  intros H. unfold Api.responseError. cbv zeta.
  destruct (response e) as [r|]; [|intros ?; simplify_eq; lia].
  destruct (bool_decide _ && _); [|intros ?; simplify_eq; lia].
  destruct (Storage.getItem _ _) as [[|a t]|]; try (intros ?; simplify_eq; lia).
  destruct (refresh_net _ _ _) as [access|err].
  - intros Hre. apply H in Hre; [|reflexivity]. rewrite Hre.
    cbn [wire with_storage record]. rewrite refresh_calls_app. simpl. lia.
  - intros ?; simplify_eq. cbn [wire with_storage with_href record].
    rewrite refresh_calls_app. simpl. lia.
Qed.

Lemma client_refresh_bound n cfg b out b' :
  client (2 + n) cfg b = Some (out, b') ->
  (refresh_calls (wire b') <= S (refresh_calls (wire b)))%nat.
Proof.
  change (2 + n)%nat with (S (S n)).
  set (sent := requestInterceptor cfg b).
  destruct (net (wire b) sent) as [r|r msg] eqn:Hnet.
  { rewrite (client_ok _ cfg b r Hnet). intros ?; simplify_eq.
    cbn [wire record]. rewrite refresh_calls_app. simpl. lia. }
  rewrite (client_failed _ cfg b r msg Hnet). fold sent. intros Hre.
  apply responseError_bound in Hre.
  - cbn [wire record] in Hre. rewrite refresh_calls_app in Hre. simpl in Hre. lia.
  - intros c b0 out0 b0' Hc. rewrite (client_retried n c b0 Hc).
    intros ?; simplify_eq. cbn [wire record]. rewrite refresh_calls_app. simpl. lia.
Qed.

(** C1.  A request that is not marked as retried and is answered with 401:
    the request is marked; with no refresh token in the storage (none, or an
    empty string) no refresh call is made and the 401 itself is rejected;
    with a refresh token exactly one refresh call is made, and when it
    succeeds the new access token is stored, the marked request is sent
    exactly once more with the new token in its header, and what that
    request gives is what the caller gets.  No request makes more than one
    refresh call. *)
Theorem refresh_once_per_401 (n : nat) (cfg : Config) (b : Browser)
    (r : Response) (msg : string) :
  let sent := requestInterceptor cfg b in
  let marked := set_retry sent in
  let b1 := record (Send sent) b in
  _retry cfg = false ->
  net (wire b) sent = Fail (Some r) msg ->
  status r = 401%Z ->
  (Js.truthy (Storage.getItem "refresh_token" (localStorage b)) = false ->
     client (2 + n) cfg b
     = Some (Rejected {| config := marked; response := Some r; message := msg |}, b1)
     /\ refresh_calls (wire b1) = refresh_calls (wire b))
  /\
  (forall token,
     Storage.getItem "refresh_token" (localStorage b) = Some token -> token <> "" ->
     let b2 := record (Refresh endpoint token) b1 in
     exists out b',
       client (2 + n) cfg b = Some (out, b') /\
       refresh_calls (wire b') = S (refresh_calls (wire b)) /\
       forall access,
         refresh_net (wire b1) endpoint token = inl access ->
         let again := set_Authorization ("Bearer " +:+ access) marked in
         let b3 := with_storage (Storage.setItem "access_token" access) b2 in
         out = plain again (net (wire b3) again) /\
         b' = record (Send again) b3 /\
         Storage.getItem "access_token" (localStorage b') = Some access /\
         send_calls (wire b') = S (S (send_calls (wire b))))
  /\
  (forall out b',
     client (2 + n) cfg b = Some (out, b') ->
     (refresh_calls (wire b') <= S (refresh_calls (wire b)))%nat).
Proof.
  intros sent marked b1 Hfresh H401 Hst.
  change (2 + n)%nat with (S (S n)).
  assert (Hstep : client (S (S n)) cfg b
                  = responseError (client (S n))
                      {| config := sent; response := Some r; message := msg |} b1).
  { apply (client_failed (S n) cfg b (Some r) msg H401). }
  assert (Hmark : _retry sent = false).
  { unfold sent. rewrite requestInterceptor_retry. exact Hfresh. }
  rewrite (responseError_401 (client (S n))
             {| config := sent; response := Some r; message := msg |} r b1
             eq_refl Hst Hmark) in Hstep.
  simpl in Hstep. fold marked in Hstep.
  split; [|split].
  - intros Hnone. split.
    + rewrite Hstep. simpl in Hnone.
      destruct (Storage.getItem "refresh_token" (localStorage b)) as [[|a t]|];
        [reflexivity | discriminate | reflexivity].
    + unfold b1. simpl. rewrite refresh_calls_app. simpl. lia.
  - intros token Htok Hne b2.
    rewrite Htok in Hstep. destruct token as [|a t]; [congruence|].
    destruct (refresh_net (wire b ++ [Send sent]) endpoint (String a t))
      as [access|err] eqn:Href.
    + set (again := set_Authorization ("Bearer " +:+ access) marked) in *.
      set (b3 := with_storage (Storage.setItem "access_token" access) b2).
      assert (Hagain : requestInterceptor again b3 = again).
      { apply requestInterceptor_refreshed. simpl. apply lookup_insert_eq. }
      assert (Hre : client (S n) again b3
                    = Some (plain again (net (wire b3) again), record (Send again) b3)).
      { rewrite (client_retried n again b3 eq_refl). cbv zeta. rewrite Hagain. reflexivity. }
      exists (plain again (net (wire b3) again)), (record (Send again) b3).
      split; [rewrite Hstep; exact Hre|].
      split.
      * simpl. rewrite !refresh_calls_app. simpl. lia.
      * intros access' Hacc. simpl in Hacc. rewrite Href in Hacc.
        injection Hacc as <-. cbv zeta. fold again b3.
        split; [reflexivity|]. split; [reflexivity|]. split.
        -- simpl. apply lookup_insert_eq.
        -- simpl. rewrite !send_calls_app. simpl. lia.
    + eexists _, _. split; [rewrite Hstep; reflexivity|].
      split.
      * simpl. rewrite !refresh_calls_app. simpl. lia.
      * intros access Hacc. simpl in Hacc. rewrite Href in Hacc. discriminate.
  - apply (client_refresh_bound n).
Qed.

(** C2.  When the refresh call of an unmarked 401 fails, the three
    credential keys are removed from the storage, the location is set to the
    login page, no retry is sent, and the caller gets the error of the
    refresh call. *)
Theorem refresh_failure_logs_out (n : nat) (cfg : Config) (b : Browser)
    (r : Response) (msg token : string) (refreshError : AxiosError) :
  let sent := requestInterceptor cfg b in
  let b1 := record (Send sent) b in
  _retry cfg = false ->
  net (wire b) sent = Fail (Some r) msg ->
  status r = 401%Z ->
  Storage.getItem "refresh_token" (localStorage b) = Some token ->
  token <> "" ->
  refresh_net (wire b1) endpoint token = inr refreshError ->
  exists b',
    client (2 + n) cfg b = Some (Rejected refreshError, b') /\
    Storage.getItem "access_token" (localStorage b') = None /\
    Storage.getItem "refresh_token" (localStorage b') = None /\
    Storage.getItem "user" (localStorage b') = None /\
    (forall k, k <> "access_token" -> k <> "refresh_token" -> k <> "user" ->
       Storage.getItem k (localStorage b') = Storage.getItem k (localStorage b)) /\
    href b' = "/login" /\
    wire b' = wire b ++ [Send sent; Refresh endpoint token].
Proof.
  intros sent b1 Hfresh H401 Hst Htok Hne Href.
  change (2 + n)%nat with (S (S n)).
  assert (Hstep : client (S (S n)) cfg b
                  = responseError (client (S n))
                      {| config := sent; response := Some r; message := msg |} b1).
  { apply (client_failed (S n) cfg b (Some r) msg H401). }
  assert (Hmark : _retry sent = false).
  { unfold sent. rewrite requestInterceptor_retry. exact Hfresh. }
  rewrite (responseError_401 (client (S n))
             {| config := sent; response := Some r; message := msg |} r b1
             eq_refl Hst Hmark) in Hstep.
  simpl in Hstep. rewrite Htok in Hstep.
  destruct token as [|a t]; [congruence|].
  simpl in Href. rewrite Href in Hstep.
  eexists. split; [exact Hstep|]. simpl.
  unfold Storage.getItem, Storage.removeItem.
  repeat split.
  - rewrite !lookup_delete_ne by discriminate. apply lookup_delete_eq.
  - rewrite lookup_delete_ne by discriminate. apply lookup_delete_eq.
  - apply lookup_delete_eq.
  - intros k H1 H2 H3. rewrite !lookup_delete_ne by congruence. reflexivity.
  - rewrite <- app_assoc. reflexivity.
Qed.

(** Every outgoing request carries [Bearer <access token>] when an access
    token (a non-empty string) is stored, and leaves as it is otherwise. *)
Theorem bearer_attached_when_stored (cfg : Config) (b : Browser) :
  (forall token, Storage.getItem "access_token" (localStorage b) = Some token -> token <> "" ->
     requestInterceptor cfg b = set_Authorization ("Bearer " +:+ token) cfg) /\
  (Js.truthy (Storage.getItem "access_token" (localStorage b)) = false ->
     requestInterceptor cfg b = cfg).
Proof.
  unfold requestInterceptor. split.
  - intros token -> Hne. destruct token; [congruence | reflexivity].
  - destruct (Storage.getItem _ _) as [[|a t]|]; simpl; [reflexivity | discriminate | reflexivity].
Qed.

(** A failure that is not a 401 reaches the caller as it is: one request on
    the wire, no refresh, no retry, the storage and the location untouched. *)
Theorem other_errors_passed_on (n : nat) (cfg : Config) (b : Browser)
    (r : option Response) (msg : string) :
  let sent := requestInterceptor cfg b in
  net (wire b) sent = Fail r msg ->
  (forall resp, r = Some resp -> status resp <> 401%Z) ->
  client (S n) cfg b
  = Some (Rejected {| config := sent; response := r; message := msg |},
          {| localStorage := localStorage b; href := href b;
             wire := wire b ++ [Send sent] |}).
Proof.
  intros sent Hnet Hst. rewrite (client_failed n cfg b r msg Hnet).
  apply responseError_other. exact Hst.
Qed.

(** *** Every run of the instance *)

Lemma requestInterceptor_same cfg b : same_request (requestInterceptor cfg b) cfg.
Proof.
  unfold requestInterceptor, same_request.
  destruct (Storage.getItem _ _) as [[|a t]|]; simpl; auto.
Qed.

(** The three shapes of a run: the request was sent and its result is the
    caller's; the refresh call failed and the session was dropped; the
    refresh call gave a token and the marked request was sent again. *)
Lemma client_cases n cfg b out b' :
  client (2 + n) cfg b = Some (out, b') ->
  let sent := requestInterceptor cfg b in
  let b1 := record (Send sent) b in
  b' = b1
  \/
  (exists token err,
     Storage.getItem "refresh_token" (localStorage b) = Some token /\ token <> "" /\
     out = Rejected err /\
     b' = with_href "/login"
            (with_storage (Storage.removeItem "user")
               (with_storage (Storage.removeItem "refresh_token")
                  (with_storage (Storage.removeItem "access_token")
                     (record (Refresh endpoint token) b1)))))
  \/
  (exists token access,
     Storage.getItem "refresh_token" (localStorage b) = Some token /\ token <> "" /\
     let again := set_Authorization ("Bearer " +:+ access) (set_retry sent) in
     let b3 := with_storage (Storage.setItem "access_token" access)
                 (record (Refresh endpoint token) b1) in
     out = plain again (net (wire b3) again) /\
     b' = record (Send again) b3).
Proof.
  change (2 + n)%nat with (S (S n)). intros Hrun sent b1.
  destruct (net (wire b) sent) as [r|r msg] eqn:Hnet.
  { rewrite (client_ok _ cfg b r Hnet) in Hrun. simplify_eq. left. reflexivity. }
  rewrite (client_failed _ cfg b r msg Hnet) in Hrun. fold sent b1 in Hrun.
  unfold Api.responseError in Hrun. cbv zeta in Hrun. simpl in Hrun.
  destruct r as [r|]; [|simplify_eq; left; reflexivity].
  destruct (bool_decide (status r = 401%Z) && negb (_retry sent)) eqn:Hc;
    [|simplify_eq; left; reflexivity].
  destruct (Storage.getItem "refresh_token" (localStorage b)) as [[|a t]|] eqn:Htok;
    try (simplify_eq; left; reflexivity).
  destruct (refresh_net (wire b ++ [Send sent]) endpoint (String a t)) as [access|err] eqn:Href.
  - right. right. exists (String a t), access.
    split; [reflexivity|]. split; [discriminate|]. cbv zeta.
    set (again := set_Authorization ("Bearer " +:+ access) (set_retry sent)) in *.
    set (b3 := with_storage (Storage.setItem "access_token" access)
                 (record (Refresh endpoint (String a t)) b1)) in *.
    assert (Hagain : requestInterceptor again b3 = again).
    { apply requestInterceptor_refreshed. simpl. apply lookup_insert_eq. }
    rewrite (client_retried n again b3 eq_refl) in Hrun. cbv zeta in Hrun.
    rewrite Hagain in Hrun. simplify_eq. split; reflexivity.
  - right. left. exists (String a t), err.
    split; [reflexivity|]. split; [discriminate|]. simplify_eq. split; reflexivity.
Qed.

(** What a request puts on the wire, whatever the backend answers: the
    request itself, then possibly one refresh call, then possibly the
    request once more, marked.  Method, url and body are those the caller
    gave; nothing else is sent. *)
Theorem request_wire_shape (n : nat) (cfg : Config) (b : Browser)
    (out : Outcome) (b' : Browser) :
  client (2 + n) cfg b = Some (out, b') ->
  Trace cfg (wire b) (wire b') /\
  (send_calls (wire b') <= 2 + send_calls (wire b))%nat /\
  (length (wire b') <= 3 + length (wire b))%nat.
Proof.
  intros Hrun. pose proof (requestInterceptor_same cfg b) as Hsame.
  destruct (client_cases n cfg b out b' Hrun) as [->|[(token & err & _ & _ & _ & ->)|
    (token & access & _ & _ & Hc)]].
  - split; [apply sent_once with (c1 := requestInterceptor cfg b);
            [exact Hsame | reflexivity]|].
    cbn [wire record]. rewrite send_calls_app, length_app. simpl. lia.
  - split.
    + apply refresh_failed
        with (c1 := requestInterceptor cfg b) (endpoint := endpoint) (token := token);
        [exact Hsame|]. cbn. rewrite <- app_assoc. reflexivity.
    + cbn [wire record with_storage with_href].
      rewrite !send_calls_app, !length_app. simpl. lia.
  - cbv zeta in Hc. destruct Hc as [_ ->]. split.
    + apply sent_again
        with (c1 := requestInterceptor cfg b)
             (c2 := set_Authorization ("Bearer " +:+ access)
                      (set_retry (requestInterceptor cfg b)))
             (endpoint := endpoint) (token := token).
      * exact Hsame.
      * destruct Hsame as (H1 & H2 & H3). repeat split; assumption.
      * reflexivity.
      * cbn. rewrite <- !app_assoc. reflexivity.
    + cbn [wire record with_storage].
      rewrite !send_calls_app, !length_app. simpl. lia.
Qed.

(** What a request does to the browser, whatever the backend answers.  No
    key but the three credential keys is touched; the refresh token and the
    cached user are never written, only removed; the location changes only
    to the login page, and then the three keys are gone and the caller gets
    a rejection; a request that resolves leaves the location, the refresh
    token and the cached user as they were. *)
Theorem request_storage_frame (n : nat) (cfg : Config) (b : Browser)
    (out : Outcome) (b' : Browser) :
  client (2 + n) cfg b = Some (out, b') ->
  (forall k, k <> "access_token" -> k <> "refresh_token" -> k <> "user" ->
     Storage.getItem k (localStorage b') = Storage.getItem k (localStorage b)) /\
  (forall k, k = "refresh_token" \/ k = "user" ->
     Storage.getItem k (localStorage b') = Storage.getItem k (localStorage b)
     \/ Storage.getItem k (localStorage b') = None) /\
  (href b' = href b
   \/ (href b' = "/login" /\ (exists e, out = Rejected e) /\
       forall k, k = "access_token" \/ k = "refresh_token" \/ k = "user" ->
         Storage.getItem k (localStorage b') = None)) /\
  (forall r, out = Resolved r ->
     href b' = href b /\
     Storage.getItem "refresh_token" (localStorage b')
     = Storage.getItem "refresh_token" (localStorage b) /\
     Storage.getItem "user" (localStorage b') = Storage.getItem "user" (localStorage b)).
Proof.
  intros Hrun.
  destruct (client_cases n cfg b out b' Hrun) as [->|[(token & err & _ & _ & -> & ->)|
    (token & access & _ & _ & Hc)]].
  - cbn. repeat split; auto.
  - cbn. unfold Storage.getItem, Storage.removeItem. repeat split.
    + intros k H1 H2 H3. rewrite !lookup_delete_ne by congruence. reflexivity.
    + intros k [-> | ->]; right.
      * rewrite lookup_delete_ne by discriminate. apply lookup_delete_eq.
      * apply lookup_delete_eq.
    + right. split; [reflexivity|]. split; [eauto|].
      intros k [-> | [-> | ->]].
      * rewrite !lookup_delete_ne by discriminate. apply lookup_delete_eq.
      * rewrite lookup_delete_ne by discriminate. apply lookup_delete_eq.
      * apply lookup_delete_eq.
    + discriminate.
    + discriminate.
    + discriminate.
  - cbv zeta in Hc. destruct Hc as [_ ->]. cbn.
    unfold Storage.getItem, Storage.setItem. repeat split.
    + intros k H1 H2 H3. rewrite lookup_insert_ne by congruence. reflexivity.
    + intros k [-> | ->]; left; rewrite lookup_insert_ne by discriminate; reflexivity.
    + left. reflexivity.
    + rewrite lookup_insert_ne by discriminate. reflexivity.
    + rewrite lookup_insert_ne by discriminate. reflexivity.
Qed.

End ApiFacts.

(** The run of C1: a stale access token, a refresh token, a backend that
    takes the fresh token. *)
Lemma refresh_once_witness :
  exists b',
    Api.client None Scenario.net Scenario.refresh_up 2 Scenario.getFiles Scenario.browser
    = Some (Api.Resolved Scenario.listing, b')
    /\ Api.refresh_calls (Api.wire b') = 1%nat
    /\ Api.send_calls (Api.wire b') = 2%nat.
Proof.
  destruct (refresh_once_per_401 None Scenario.net Scenario.refresh_up 0
              Scenario.getFiles Scenario.browser Scenario.expired
              "Request failed with status code 401"
              eq_refl eq_refl eq_refl) as (_ & H & _).
  destruct (H "r1" eq_refl ltac:(discriminate)) as (out & b' & Hc & Hn & Hok).
  destruct (Hok "fresh" eq_refl) as (Hout & _ & _ & Hs).
  change (2 + 0)%nat with 2%nat in Hc.
  exists b'. split; [|split].
  - rewrite Hc, Hout. reflexivity.
  - exact Hn.
  - exact Hs.
Defined.

(** The run of C2: the refresh endpoint is down. *)
Lemma refresh_failure_witness :
  exists b',
    Api.client None Scenario.net Scenario.refresh_down 2 Scenario.getFiles Scenario.browser
    = Some (Api.Rejected Scenario.network_error, b')
    /\ Api.localStorage b' = ∅
    /\ Api.href b' = "/login".
Proof.
  destruct (refresh_failure_logs_out None Scenario.net Scenario.refresh_down 0
              Scenario.getFiles Scenario.browser Scenario.expired
              "Request failed with status code 401" "r1" Scenario.network_error
              eq_refl eq_refl eq_refl eq_refl ltac:(discriminate) eq_refl)
    as (b' & Hc & Ha & Hr & Hu & Hk & Hh & _).
  change (2 + 0)%nat with 2%nat in Hc.
  exists b'. split; [exact Hc|]. split; [|exact Hh].
  apply map_eq. intros k. rewrite lookup_empty.
  destruct (decide (k = "access_token")) as [->|H1]; [exact Ha|].
  destruct (decide (k = "refresh_token")) as [->|H2]; [exact Hr|].
  destruct (decide (k = "user")) as [->|H3]; [exact Hu|].
  unfold Storage.getItem in Hk. rewrite (Hk k H1 H2 H3). simpl.
  rewrite !lookup_insert_ne by congruence. apply lookup_empty.
Defined.

(** The run of a failure that is no 401. *)
Lemma other_errors_witness :
  Api.client None Scenario.net_500 Scenario.refresh_up 1 Scenario.getFiles Scenario.browser
  = Some (Api.Rejected
            {| Api.config := Api.set_Authorization "Bearer stale" Scenario.getFiles;
               Api.response := Some Scenario.failing;
               Api.message := "Request failed with status code 500" |},
          {| Api.localStorage := Api.localStorage Scenario.browser;
             Api.href := "/";
             Api.wire := [Api.Send (Api.set_Authorization "Bearer stale" Scenario.getFiles)] |}).
Proof.
  apply (other_errors_passed_on None Scenario.net_500 Scenario.refresh_up 0
           Scenario.getFiles Scenario.browser (Some Scenario.failing)
           "Request failed with status code 500" eq_refl).
  intros resp [= <-]. discriminate.
Defined.

(** ** The session *)

Section AuthFacts.

Import Auth.

Variable JSON_stringify : User.t -> string.
Variable JSON_parse : string -> option User.t.
Variable backend : list ApiCall -> ApiCall -> AuthResponse.t + Api.AxiosError.

Local Abbreviation login := (Auth.login JSON_stringify backend).
Local Abbreviation checkAuth := (Auth.checkAuth JSON_parse).
Local Abbreviation getCurrentUser := (Auth.authService_getCurrentUser JSON_parse).

(** [isAuthenticated] looks at nothing but the entry of the access token:
    it is true exactly when a non-empty string is stored there. *)
Lemma isAuthenticated_iff (w : World) :
  authService_isAuthenticated w = true
  <-> exists token, Storage.getItem "access_token" (localStorage w) = Some token /\ token <> "".
Proof. unfold authService_isAuthenticated. apply truthy_true. Qed.

(** [checkAuth] reads the storage and writes the store: it makes no call
    and leaves the storage as it is. *)
Lemma checkAuth_local (w : World) :
  calls (checkAuth w) = calls w /\ localStorage (checkAuth w) = localStorage w.
Proof. split; reflexivity. Qed.

Lemma checkAuth_storage_only (w w' : World) :
  localStorage w = localStorage w' -> state (checkAuth w) = state (checkAuth w').
Proof.
  intros H. unfold Auth.checkAuth, authService_getCurrentUser, authService_isAuthenticated.
  simpl. rewrite H. reflexivity.
Qed.

(** C9, as the code has it.  After a login the backend accepted with an
    access token that is not the empty string, the storage holds the access
    token, the refresh token and the serialised profile that came back;
    [isAuthenticated()] is true, and it is true exactly when an access token
    that is a non-empty string is in the storage; [checkAuth()] then gives
    the store the same user and flag again, from the storage alone and
    without a call.  The two facts about JSON are those of the platform: a
    profile serialises to a non-empty text that parses back to it. *)
Theorem login_then_checkAuth (username password : string) (w : World)
    (response : AuthResponse.t) :
  let access := AuthTokens.access (AuthResponse.tokens response) in
  let refresh := AuthTokens.refresh (AuthResponse.tokens response) in
  let profile := AuthResponse.user response in
  let w1 := snd (login username password w) in
  backend (calls w) (api_login username password) = inl response ->
  access <> "" ->
  JSON_stringify profile <> "" ->
  JSON_parse (JSON_stringify profile) = Some profile ->
  fst (login username password w) = None /\
  Storage.getItem "access_token" (localStorage w1) = Some access /\
  Storage.getItem "refresh_token" (localStorage w1) = Some refresh /\
  Storage.getItem "user" (localStorage w1) = Some (JSON_stringify profile) /\
  authService_isAuthenticated w1 = true /\
  (forall w', authService_isAuthenticated w' = true
              <-> exists token, Storage.getItem "access_token" (localStorage w') = Some token
                                /\ token <> "") /\
  state w1 = {| user := Some profile; isAuthenticated := true |} /\
  state (checkAuth w1) = state w1 /\
  (forall w', localStorage w' = localStorage w1 -> state (checkAuth w') = state w1) /\
  calls (checkAuth w1) = calls w1 /\
  calls w1 = calls w ++ [api_login username password].
Proof.
  intros access refresh profile w1 Hok Hacc Hne Hrt.
  assert (Hw1 : login username password w
                = (None, set {| user := Some profile; isAuthenticated := true |}
                           (setAuthData JSON_stringify response
                              (called (api_login username password) w)))).
  { unfold Auth.login, authService_login. rewrite Hok. reflexivity. }
  assert (Hauth : authService_isAuthenticated w1 = true).
  { unfold w1. rewrite Hw1. unfold authService_isAuthenticated. simpl.
    unfold Storage.getItem, Storage.setItem.
    rewrite !lookup_insert_ne by discriminate. rewrite lookup_insert_eq.
    apply truthy_Some. exact Hacc. }
  assert (Huser : getCurrentUser w1 = Some profile).
  { unfold w1. rewrite Hw1. unfold authService_getCurrentUser. simpl.
    unfold Storage.getItem, Storage.setItem. rewrite lookup_insert_eq.
    fold profile. destruct (JSON_stringify profile) as [|a t] eqn:Hs; [congruence|].
    exact Hrt. }
  assert (Hstate : state w1 = {| user := Some profile; isAuthenticated := true |}).
  { unfold w1. rewrite Hw1. reflexivity. }
  assert (Hcheck : state (checkAuth w1) = state w1).
  { rewrite Hstate. unfold Auth.checkAuth. simpl. rewrite Huser, Hauth. reflexivity. }
  repeat split.
  - rewrite Hw1. reflexivity.
  - unfold w1. rewrite Hw1. simpl. unfold Storage.getItem, Storage.setItem.
    rewrite !lookup_insert_ne by discriminate. apply lookup_insert_eq.
  - unfold w1. rewrite Hw1. simpl. unfold Storage.getItem, Storage.setItem.
    rewrite lookup_insert_ne by discriminate. apply lookup_insert_eq.
  - unfold w1. rewrite Hw1. simpl. apply lookup_insert_eq.
  - exact Hauth.
  - apply isAuthenticated_iff.
  - apply isAuthenticated_iff.
  - exact Hstate.
  - exact Hcheck.
  - intros w' Hw'. rewrite (checkAuth_storage_only w' w1 Hw'). exact Hcheck.
  - unfold w1. rewrite Hw1. reflexivity.
Qed.

(** [logout] removes the three keys, signs the store out and makes no
    call. *)
Theorem logout_clears_credentials (w : World) :
  let w' := Auth.logout w in
  Storage.getItem "access_token" (localStorage w') = None /\
  Storage.getItem "refresh_token" (localStorage w') = None /\
  Storage.getItem "user" (localStorage w') = None /\
  state w' = {| user := None; isAuthenticated := false |} /\
  calls w' = calls w /\
  authService_isAuthenticated w' = false.
Proof.
  cbv zeta. unfold Auth.logout, authService_logout, authService_isAuthenticated. simpl.
  unfold Storage.getItem, Storage.removeItem.
  rewrite !lookup_delete_eq.
  rewrite !(lookup_delete_ne _ "user") by discriminate.
  rewrite !(lookup_delete_ne _ "refresh_token" "access_token") by discriminate.
  rewrite !lookup_delete_eq. repeat split.
Qed.

(** [logout] and what follows it: the three keys are gone and every other
    key of the storage is as before; no call is made; a re-check after it
    finds nobody signed in, whatever the storage held; logging out twice is
    logging out once. *)
Theorem logout_signs_out (w : World) :
  let w' := Auth.logout w in
  (forall k, Storage.getItem k (localStorage w')
             = if bool_decide (k ∈ ["access_token"; "refresh_token"; "user"])
               then None else Storage.getItem k (localStorage w)) /\
  calls w' = calls w /\
  state (checkAuth w') = {| user := None; isAuthenticated := false |} /\
  state (checkAuth w') = state w' /\
  Auth.logout w' = w'.
Proof.
  cbv zeta.
  assert (Hk : forall k, Storage.getItem k (localStorage (Auth.logout w))
             = if bool_decide (k ∈ ["access_token"; "refresh_token"; "user"])
               then None else Storage.getItem k (localStorage w)).
  { intros k. unfold Auth.logout, authService_logout, Storage.getItem, Storage.removeItem.
    simpl. case_bool_decide as Hin.
    - apply elem_of_cons in Hin as [->|Hin];
        [rewrite !lookup_delete_ne by discriminate; apply lookup_delete_eq|].
      apply elem_of_cons in Hin as [->|Hin];
        [rewrite lookup_delete_ne by discriminate; apply lookup_delete_eq|].
      apply list_elem_of_singleton in Hin as ->. apply lookup_delete_eq.
    - rewrite !not_elem_of_cons in Hin. destruct Hin as (H1 & H2 & H3 & _).
      rewrite !lookup_delete_ne by congruence. reflexivity. }
  assert (Hc : state (checkAuth (Auth.logout w)) = {| user := None; isAuthenticated := false |}).
  { unfold Auth.checkAuth, authService_getCurrentUser, authService_isAuthenticated.
    rewrite (Hk "user"), (Hk "access_token"). reflexivity. }
  split; [exact Hk|]. split; [reflexivity|]. split; [exact Hc|]. split; [exact Hc|].
  unfold Auth.logout, authService_logout, Storage.removeItem, Auth.with_storage, Auth.set.
  simpl. f_equal. apply map_eq. intros k. rewrite !lookup_delete.
  repeat case_decide; reflexivity.
Qed.

(** A cached profile that is missing, empty or does not parse is no user,
    while the flag follows the access token alone: a re-check with a token
    and a corrupt profile reports an authenticated session without a user. *)
Theorem corrupt_profile_gives_no_user (w : World) :
  (Storage.getItem "user" (localStorage w) = None
   \/ Storage.getItem "user" (localStorage w) = Some ""
   \/ exists text, Storage.getItem "user" (localStorage w) = Some text
                   /\ JSON_parse text = None) ->
  state (checkAuth w) = {| user := None; isAuthenticated := authService_isAuthenticated w |} /\
  (forall token, Storage.getItem "access_token" (localStorage w) = Some token -> token <> "" ->
     state (checkAuth w) = {| user := None; isAuthenticated := true |}).
Proof.
  intros H.
  assert (Hu : getCurrentUser w = None).
  { unfold authService_getCurrentUser.
    destruct H as [-> | [-> | (text & -> & Hp)]]; [reflexivity | reflexivity |].
    destruct text; [reflexivity | exact Hp]. }
  unfold Auth.checkAuth. rewrite Hu. split; [reflexivity|].
  intros token Ht Hne. simpl. f_equal.
  apply isAuthenticated_iff. eauto.
Qed.

(** The token a login stores is the one the next request of the client
    carries; after a logout the client adds no header. *)
Theorem login_authorises_requests (username password : string) (w : World)
    (response : AuthResponse.t) (cfg : Api.Config) (href : string) (wire : list Api.Call) :
  let access := AuthTokens.access (AuthResponse.tokens response) in
  let w1 := snd (login username password w) in
  backend (calls w) (api_login username password) = inl response ->
  access <> "" ->
  Api.requestInterceptor cfg
    {| Api.localStorage := localStorage w1; Api.href := href; Api.wire := wire |}
  = Api.set_Authorization ("Bearer " +:+ access) cfg
  /\
  Api.requestInterceptor cfg
    {| Api.localStorage := localStorage (Auth.logout w1); Api.href := href; Api.wire := wire |}
  = cfg.
Proof.
  intros access w1 Hok Hne. split.
  - unfold Api.requestInterceptor, w1, Auth.login, authService_login. rewrite Hok. simpl.
    unfold Storage.getItem, Storage.setItem.
    rewrite !lookup_insert_ne by discriminate. rewrite lookup_insert_eq.
    fold access. destruct access; [congruence | reflexivity].
  - unfold Api.requestInterceptor, Auth.logout, authService_logout. simpl.
    unfold Storage.getItem, Storage.removeItem.
    rewrite !lookup_delete_ne by discriminate. rewrite lookup_delete_eq. reflexivity.
Qed.

End AuthFacts.

(** The run of C9: alice signs in. *)
Lemma login_witness :
  let w1 := snd (Auth.login Scenario.stringify Scenario.accounts "alice" "pw"
                   Scenario.signed_out) in
  Auth.state w1 = {| Auth.user := Some Scenario.alice; Auth.isAuthenticated := true |}
  /\ Auth.state (Auth.checkAuth Scenario.parse w1) = Auth.state w1
  /\ Auth.calls (Auth.checkAuth Scenario.parse w1) = [Auth.api_login "alice" "pw"].
Proof.
  destruct (login_then_checkAuth Scenario.stringify Scenario.parse Scenario.accounts
              "alice" "pw" Scenario.signed_out
              {| AuthResponse.user := Scenario.alice;
                 AuthResponse.tokens :=
                   {| AuthTokens.access := "a1"; AuthTokens.refresh := "r1" |} |}
              eq_refl ltac:(discriminate) ltac:(discriminate) eq_refl)
    as (_ & _ & _ & _ & _ & _ & Hs & Hc & _ & Hn & Hl).
  split; [exact Hs|]. split; [exact Hc|]. rewrite Hn. exact Hl.
Defined.

(** C9 as stated fails for a login the backend accepts with an empty
    access token.  The login succeeds, the three entries are stored (the
    access token as the empty string) and the store says authenticated; yet
    [isAuthenticated()] is false, and [checkAuth()] does not re-derive the
    flag of the store but turns it off. *)
Lemma empty_access_token_is_no_session :
  let run := Auth.login Scenario.stringify Scenario.token_less "alice" "pw"
               Scenario.signed_out in
  let w1 := snd run in
  fst run = None
  /\ Storage.getItem "access_token" (Auth.localStorage w1) = Some ""
  /\ Storage.getItem "refresh_token" (Auth.localStorage w1) = Some "r1"
  /\ Auth.state w1 = {| Auth.user := Some Scenario.alice; Auth.isAuthenticated := true |}
  /\ Auth.authService_isAuthenticated w1 = false
  /\ Auth.state (Auth.checkAuth Scenario.parse w1)
     = {| Auth.user := Some Scenario.alice; Auth.isAuthenticated := false |}
  /\ Auth.state (Auth.checkAuth Scenario.parse w1) <> Auth.state w1.
Proof. cbv zeta. repeat split; try (vm_compute; reflexivity). vm_compute. discriminate. Qed.

(** ** The credential keys *)




(** ** Uploads *)

Lemma too_large_rejected file presign xhr finalize s :
  (Upload.maxSize < Upload.size file)%Z ->
  Upload.handleFile file presign xhr finalize s = (s, [Upload.onError Upload.size_error]).
Proof.
  intros H. unfold Upload.handleFile.
  destruct (Z.ltb_spec Upload.maxSize (Upload.size file)); [reflexivity | lia].
Qed.

Lemma wrong_type_rejected file presign xhr finalize s :
  (Upload.size file <= Upload.maxSize)%Z ->
  Upload.type file ∉ Upload.allowedTypes ->
  Upload.handleFile file presign xhr finalize s = (s, [Upload.onError Upload.type_error]).
Proof.
  intros H Ht. unfold Upload.handleFile.
  destruct (Z.ltb_spec Upload.maxSize (Upload.size file)); [lia|].
  rewrite bool_decide_eq_false_2 by exact Ht. reflexivity.
Qed.

(** C5, as the code has it.  A file of more than 10 * 1024 * 1024 bytes is
    answered with the size error and nothing else, whatever its type; a file
    within the limit whose MIME type is not one of the five allowed is
    answered with the type error and nothing else.  Neither makes a network
    call nor touches the state of the component. *)
Theorem invalid_file_rejected (file : Upload.File)
    (presign : PresignResponse.t + Api.AxiosError) (xhr : Upload.Xhr)
    (finalize : FileAsset.t + Api.AxiosError) (s : Upload.State) :
  let run := Upload.handleFile file presign xhr finalize s in
  Upload.maxSize = 10485760%Z /\
  ((Upload.maxSize < Upload.size file)%Z ->
     run = (s, [Upload.onError "File size exceeds 10MB limit"]) /\
     Upload.network_calls (snd run) = [] /\
     Upload.reported (snd run) = ["File size exceeds 10MB limit"]) /\
  ((Upload.size file <= Upload.maxSize)%Z ->
   Upload.type file ∉ Upload.allowedTypes ->
     run = (s, [Upload.onError Upload.type_error]) /\
     Upload.network_calls (snd run) = [] /\
     Upload.reported (snd run) = [Upload.type_error]).
Proof.
  intros run. split; [reflexivity|]. split.
  - intros H. unfold run. rewrite (too_large_rejected _ _ _ _ _ H). repeat split.
  - intros H Ht. unfold run. rewrite (wrong_type_rejected _ _ _ _ _ H Ht). repeat split.
Qed.

(** C5 as stated fails on a file that is both too large and of a type that
    is not allowed: the 20 MiB video is answered with the size error only,
    no type error is reported. *)
Lemma oversized_wrong_type_gets_size_error :
  let run := Upload.handleFile Scenario.big_video Scenario.presigned (Upload.load 204)
               Scenario.stored_asset Scenario.idle in
  (Upload.type Scenario.big_video ∉ Upload.allowedTypes) /\
  Upload.reported (snd run) = [Upload.size_error] /\
  (Upload.type_error ∉ Upload.reported (snd run)).
Proof.
  cbv zeta. split; [|split].
  - unfold Upload.allowedTypes, Scenario.big_video. simpl.
    rewrite !not_elem_of_cons. repeat split; try discriminate. apply not_elem_of_nil.
  - reflexivity.
  - change (Upload.reported _) with [Upload.size_error].
    rewrite not_elem_of_cons. split; [discriminate | apply not_elem_of_nil].
Qed.

(** The run of C5: a PDF one byte over the limit, and a small video. *)
Lemma invalid_file_witness :
  Upload.handleFile Scenario.big_pdf Scenario.presigned (Upload.load 204)
    Scenario.stored_asset Scenario.idle
  = (Scenario.idle, [Upload.onError "File size exceeds 10MB limit"])
  /\
  Upload.handleFile Scenario.small_video Scenario.presigned (Upload.load 204)
    Scenario.stored_asset Scenario.idle
  = (Scenario.idle,
     [Upload.onError "File type not supported. Allowed: PDF, TXT, DOCX, PNG, JPEG"]).
Proof.
  split.
  - destruct (invalid_file_rejected Scenario.big_pdf Scenario.presigned (Upload.load 204)
                Scenario.stored_asset Scenario.idle) as (_ & H & _).
    apply H. reflexivity.
  - destruct (invalid_file_rejected Scenario.small_video Scenario.presigned (Upload.load 204)
                Scenario.stored_asset Scenario.idle) as (_ & _ & H).
    apply H.
    + discriminate.
    + unfold Upload.allowedTypes, Scenario.small_video. simpl.
      rewrite !not_elem_of_cons. repeat split; try discriminate. apply not_elem_of_nil.
Defined.

(** At the limit itself the size check lets the file through: a PDF of
    exactly 10 * 1024 * 1024 bytes is sent on to the presign call. *)
Example file_at_limit_is_uploaded :
  Upload.network_calls
    (snd (Upload.handleFile
            {| Upload.name := "Scan.PDF"; Upload.type := "application/pdf";
               Upload.size := 10 * 1024 * 1024 |}
            Scenario.presigned (Upload.load 204) Scenario.stored_asset Scenario.idle))
  = [Upload.presignUpload "Scan.PDF" "pdf" 10485760;
     Upload.xhrPost "https://bucket.example/upload" [("key", "uploads/1")]
       {| Upload.name := "Scan.PDF"; Upload.type := "application/pdf";
          Upload.size := 10 * 1024 * 1024 |};
     Upload.finalizeUpload "uploads/1" "Scan.PDF" "pdf" 10485760].
Proof. reflexivity. Qed.

(** *** The whole upload *)

(** A file that passes both checks is presigned first, and the component
    is idle again when the handler is done. *)
Lemma handleFile_valid file presign xhr finalize s :
  (Upload.size file <= Upload.maxSize)%Z ->
  Upload.type file ∈ Upload.allowedTypes ->
  let run := Upload.handleFile file presign xhr finalize s in
  (exists rest,
     snd run
     = Upload.presignUpload (Upload.name file) (Upload.fileTypeOf file) (Upload.size file)
       :: rest) /\
  fst run = {| Upload.uploading := false; Upload.progress := 0 |}.
Proof.
  intros Hs Ht. cbv zeta. unfold Upload.handleFile.
  destruct (Z.ltb_spec Upload.maxSize (Upload.size file)); [lia|].
  rewrite bool_decide_eq_true_2 by exact Ht. simpl.
  destruct presign as [data|err]; [|simpl; eauto].
  destruct xhr as [status|]; [|simpl; eauto].
  destruct (bool_decide (status = 204%Z) || bool_decide (status = 200%Z)); [|simpl; eauto].
  destruct finalize; simpl; eauto.
Qed.

(** A network call is made exactly for a file within the size limit whose
    MIME type is allowed, and then the first call is a presign request for
    the file's name and its size (nothing is said here of the type it
    carries); whatever becomes of the upload, the component is no longer
    uploading when the handler is done.  A file that is turned away leaves
    the component as it was. *)
Theorem network_iff_valid (file : Upload.File)
    (presign : PresignResponse.t + Api.AxiosError) (xhr : Upload.Xhr)
    (finalize : FileAsset.t + Api.AxiosError) (s : Upload.State) :
  let run := Upload.handleFile file presign xhr finalize s in
  let valid := (Upload.size file <= Upload.maxSize)%Z /\ Upload.type file ∈ Upload.allowedTypes in
  (Upload.network_calls (snd run) <> [] <-> valid) /\
  (valid ->
     Upload.presigns (Upload.name file) (Upload.size file) <$> head (snd run) = Some true
     /\ Upload.uploading (fst run) = false) /\
  (~ valid -> fst run = s /\ exists msg, snd run = [Upload.onError msg]).
Proof.
  intros run valid.
  assert (Hvalid : valid ->
            (exists rest,
               snd run
               = Upload.presignUpload (Upload.name file) (Upload.fileTypeOf file)
                   (Upload.size file) :: rest) /\
            fst run = {| Upload.uploading := false; Upload.progress := 0 |}).
  { intros [Hs Ht]. apply (handleFile_valid file presign xhr finalize s Hs Ht). }
  assert (Hinvalid : ~ valid -> fst run = s /\ exists msg, snd run = [Upload.onError msg]).
  { intros Hn. unfold run.
    destruct (Z.ltb_spec Upload.maxSize (Upload.size file)) as [Hbig|Hok].
    - rewrite (too_large_rejected _ _ _ _ _ Hbig). simpl. eauto.
    - assert (Ht : Upload.type file ∉ Upload.allowedTypes).
      { intros Ht. apply Hn. split; assumption. }
      rewrite (wrong_type_rejected _ _ _ _ _ Hok Ht). simpl. eauto. }
  split; [split|split].
  - intros Hcalls.
    destruct (Z.ltb_spec Upload.maxSize (Upload.size file)) as [Hbig|Hok].
    + exfalso. apply Hcalls. unfold run. rewrite (too_large_rejected _ _ _ _ _ Hbig).
      reflexivity.
    + destruct (decide (Upload.type file ∈ Upload.allowedTypes)) as [Ht|Ht];
        [split; assumption|].
      exfalso. apply Hcalls. unfold run. rewrite (wrong_type_rejected _ _ _ _ _ Hok Ht).
      reflexivity.
  - intros Hv. destruct (Hvalid Hv) as [(rest & ->) _]. simpl. discriminate.
  - intros Hv. destruct (Hvalid Hv) as [(rest & ->) Hst].
    split; [|rewrite Hst; reflexivity].
    simpl. rewrite !bool_decide_eq_true_2 by reflexivity. reflexivity.
  - exact Hinvalid.
Qed.

(** Closes one branch of [handleFile] once its calls and its report are
    given: the report is either the completion or an error whose text
    [nonempty] shows not to be empty. *)
Ltac upload_branch nonempty :=
  simpl;
  split; [reflexivity|]; split; [reflexivity|]; split; [reflexivity|];
  split; [reflexivity|]; split; [simpl; lia|]; split;
  [ intros ? Hrep;
    first [ discriminate Hrep
          | injection Hrep as <-; repeat split; eauto ]
  | intros ? Hrep;
    first [ discriminate Hrep
          | injection Hrep as <-; split;
            [ nonempty | first [ left; simpl; lia | right; eauto ] ] ] ].

(** Every upload ends with exactly one report to the parent, after all its
    network calls; the calls are a beginning of presign, transfer, finalize,
    in that order; completion is reported only with the asset the finalize
    call returned, after a presign that succeeded and a transfer that ended
    with status 200 or 204; and an error is never reported with an empty
    text. *)
Theorem upload_reports_once (file : Upload.File)
    (presign : PresignResponse.t + Api.AxiosError) (xhr : Upload.Xhr)
    (finalize : FileAsset.t + Api.AxiosError) (s : Upload.State) :
  let run := Upload.handleFile file presign xhr finalize s in
  exists calls report,
    snd run = calls ++ [report] /\
    Upload.network_calls (snd run) = calls /\
    Upload.is_network report = false /\
    Upload.stage <$> calls = seq 1 (length calls) /\
    (length calls <= 3)%nat /\
    (forall asset, report = Upload.onUploadComplete asset ->
       finalize = inl asset /\ length calls = 3%nat /\
       (exists data, presign = inl data) /\
       (xhr = Upload.load 200 \/ xhr = Upload.load 204)) /\
    (forall msg, report = Upload.onError msg ->
       msg <> "" /\ ((length calls < 3)%nat \/ exists err, finalize = inr err)).
Proof.
  cbv zeta. unfold Upload.handleFile.
  assert (Hmsg : forall m, Js.or_else (Some m) "Upload failed" <> "").
  { intros [|a m]; discriminate. }
  destruct (Z.ltb_spec Upload.maxSize (Upload.size file)) as [Hbig|Hok].
  { exists [], (Upload.onError Upload.size_error). upload_branch discriminate. }
  case_bool_decide as Ht; simpl.
  2:{ exists [], (Upload.onError Upload.type_error). upload_branch discriminate. }
  destruct presign as [data|err].
  2:{ eexists [_], _. upload_branch ltac:(apply Hmsg). }
  destruct xhr as [status|].
  2:{ eexists [_; _], _. upload_branch discriminate. }
  destruct (decide (status = 204%Z)) as [->|H204];
    [|destruct (decide (status = 200%Z)) as [->|H200]].
  - destruct finalize as [asset|err]; eexists [_; _; _], _;
      upload_branch ltac:(apply Hmsg).
  - destruct finalize as [asset|err]; eexists [_; _; _], _;
      upload_branch ltac:(apply Hmsg).
  - rewrite !bool_decide_eq_false_2 by assumption.
    eexists [_; _], _. upload_branch discriminate.
Qed.

(** *** The type read off the file name *)

Lemma append_cons (c : ascii) (s t : string) : String c s +:+ t = String c (s +:+ t).
Proof. reflexivity. Qed.

Lemma append_empty_r (s : string) : s +:+ "" = s.
Proof. induction s as [|c s IH]; [reflexivity|]. rewrite append_cons, IH. reflexivity. Qed.

Lemma rev_app_rev_app (s t u : string) :
  String.rev_app (String.rev_app s t) u = String.rev_app t (s +:+ u).
Proof.
  revert t u. induction s as [|c s IH]; intros t u; [reflexivity|].
  simpl String.rev_app. rewrite IH. reflexivity.
Qed.

Lemma rev_involutive (s : string) : String.rev (String.rev s) = s.
Proof. unfold String.rev. rewrite rev_app_rev_app. simpl. apply append_empty_r. Qed.

Lemma last_segment_go_nodot (s cur : string) :
  Upload.has_dot s = false ->
  Upload.last_segment_go cur s = String.rev (String.rev_app s cur).
Proof.
  revert cur. induction s as [|c s IH]; intros cur H; [reflexivity|].
  simpl in H. apply orb_false_iff in H as [Hc Hs].
  simpl. rewrite Hc. apply IH, Hs.
Qed.

Lemma last_segment_go_stem (stem ext cur : string) :
  Upload.last_segment_go cur (stem +:+ String "."%char ext)
  = Upload.last_segment_go EmptyString ext.
Proof.
  revert cur. induction stem as [|c stem IH]; intros cur.
  - reflexivity.
  - rewrite append_cons. simpl. destruct (Ascii.eqb c "."); apply IH.
Qed.

Lemma last_segment_nodot (s : string) :
  Upload.has_dot s = false -> Upload.last_segment s = s.
Proof.
  intros H. unfold Upload.last_segment. rewrite (last_segment_go_nodot s "" H).
  apply rev_involutive.
Qed.

(** For a file whose extension is ASCII text: the type sent to the backend
    is read off the text after the last dot of the file name, in lower case:
    [jpg] is sent as [jpeg], the five other known extensions as themselves,
    anything else as it is; a name without a dot is its own extension.  The
    MIME type plays no part.  The two lower-case names that every JavaScript
    object inherits, [constructor] and [__proto__], are set aside: for them
    the lookup in [fileTypeMap] finds the inherited member, which the
    association list does not have. *)
Theorem file_type_from_extension (file : Upload.File) (stem ext : string) :
  Upload.has_dot ext = false ->
  Upload.ascii_only ext = true ->
  Upload.toLowerCase ext ∉ ["constructor"; "__proto__"] ->
  (Upload.name file = stem +:+ "." +:+ ext \/ (Upload.name file = ext /\ stem = "")) ->
  Upload.fileTypeOf file
  = (if bool_decide (Upload.toLowerCase ext = "jpg") then "jpeg"
     else Upload.toLowerCase ext)
  /\ forall other, Upload.name other = Upload.name file ->
        Upload.fileTypeOf other = Upload.fileTypeOf file.
Proof.
  intros Hext _ _ Hname.
  assert (Hseg : Upload.last_segment (Upload.name file) = ext).
  { destruct Hname as [-> | [-> _]].
    - unfold Upload.last_segment.
      change ("." +:+ ext) with (String "."%char ext).
      rewrite last_segment_go_stem. apply (last_segment_nodot ext Hext).
    - apply (last_segment_nodot ext Hext). }
  split.
  - unfold Upload.fileTypeOf. rewrite Hseg.
    generalize (Upload.toLowerCase ext). intros e.
    unfold Upload.fileTypeMap. simpl Upload.assoc.
    destruct (String.eqb_spec e "pdf") as [->|Hpdf];
      [rewrite bool_decide_eq_false_2 by discriminate; reflexivity|].
    destruct (String.eqb_spec e "txt") as [->|Htxt];
      [rewrite bool_decide_eq_false_2 by discriminate; reflexivity|].
    destruct (String.eqb_spec e "docx") as [->|Hdocx];
      [rewrite bool_decide_eq_false_2 by discriminate; reflexivity|].
    destruct (String.eqb_spec e "png") as [->|Hpng];
      [rewrite bool_decide_eq_false_2 by discriminate; reflexivity|].
    destruct (String.eqb_spec e "jpeg") as [->|Hjpeg];
      [rewrite bool_decide_eq_false_2 by discriminate; reflexivity|].
    destruct (String.eqb_spec e "jpg") as [->|Hjpg];
      [rewrite bool_decide_eq_true_2 by reflexivity; reflexivity|].
    rewrite bool_decide_eq_false_2 by exact Hjpg. reflexivity.
  - intros other Ho. unfold Upload.fileTypeOf. rewrite Ho. reflexivity.
Qed.

(** ** The file list and the selection *)

Lemma loadFiles_selection answer s :
  Files.selectedFiles (Files.loadFiles answer s) = Files.selectedFiles s.
Proof. destruct answer; reflexivity. Qed.

Lemma handleFileDelete_selection fileId s :
  Files.selectedFiles (Files.handleFileDelete fileId s)
  = filter (fun id => id ≠ fileId) (Files.selectedFiles s).
Proof. reflexivity. Qed.

Lemma confirmDelete_listed fileId reload s :
  Files.listed (fst (Files.confirmDelete fileId (inl tt) reload s))
  = Files.listed (Files.loadFiles reload s).
Proof. reflexivity. Qed.

(** C3, as the code has it.  A reload never changes the selection.  A
    confirmed deletion the backend accepted takes the deleted id, and no
    other, out of the selection; one the backend refused leaves the selection
    as it was.  So after an accepted deletion the selection is within the
    listed ids as soon as every other selected id is in the fetched set. *)
Theorem selection_loses_deleted_id_only (fileId : Z)
    (reload : FileListResponse.t + Api.AxiosError) (err : Api.AxiosError)
    (s : Files.State) :
  let deleted := fst (Files.confirmDelete fileId (inl tt) reload s) in
  let refused := fst (Files.confirmDelete fileId (inr err) reload s) in
  Files.selectedFiles (Files.loadFiles reload s) = Files.selectedFiles s /\
  Files.selectedFiles deleted = filter (fun id => id ≠ fileId) (Files.selectedFiles s) /\
  (fileId ∉ Files.selectedFiles deleted) /\
  (forall id, id ≠ fileId -> id ∈ Files.selectedFiles deleted <-> id ∈ Files.selectedFiles s) /\
  Files.selectedFiles refused = Files.selectedFiles s /\
  ((forall id, id ∈ Files.selectedFiles s -> id ≠ fileId ->
      id ∈ Files.listed (Files.loadFiles reload s)) ->
   Files.selectedFiles deleted ⊆ Files.listed deleted).
Proof.
  intros deleted refused.
  assert (Hsel : Files.selectedFiles deleted
                 = filter (fun id => id ≠ fileId) (Files.selectedFiles s)).
  { unfold deleted. simpl. rewrite loadFiles_selection. reflexivity. }
  split; [apply loadFiles_selection|].
  split; [exact Hsel|].
  split; [rewrite Hsel, list_elem_of_filter; tauto|].
  split; [intros id Hid; rewrite Hsel, list_elem_of_filter; tauto|].
  split; [reflexivity|].
  intros H id. rewrite Hsel, list_elem_of_filter. intros [Hne Hin].
  unfold deleted. rewrite confirmDelete_listed. apply H; assumption.
Qed.

(** The run of C3: file 1 is deleted while files 1 and 2 are selected, and
    the reload lists file 2. *)
Lemma selection_witness :
  let deleted := fst (Files.confirmDelete 1 (inl tt) Scenario.page1_after_delete
                        Scenario.page1) in
  Files.selectedFiles deleted = [2%Z] /\
  Files.selectedFiles deleted ⊆ Files.listed deleted.
Proof.
  destruct (selection_loses_deleted_id_only 1 Scenario.page1_after_delete
              Scenario.network_error Scenario.page1) as (_ & Hsel & _ & _ & _ & Hsub).
  split; [exact Hsel|]. apply Hsub.
  intros id Hid Hne. cbn in Hid |- *.
  apply elem_of_cons in Hid as [->|Hid]; [congruence|]. exact Hid.
Defined.

(** The two handlers that select keep the selection within the listed ids:
    select-all takes the ids on display, a toggle adds the id of a row. *)
Lemma selecting_stays_listed (fileId : Z) (s : Files.State) :
  Files.selectedFiles (Files.handleSelectAll s) ⊆ Files.listed s /\
  (Files.selectedFiles s ⊆ Files.listed s -> fileId ∈ Files.listed s ->
   Files.selectedFiles (Files.handleFileToggle fileId s) ⊆ Files.listed s).
Proof.
  split.
  - unfold Files.handleSelectAll. destruct (_ =? _)%nat; simpl.
    + intros x Hx. apply elem_of_nil in Hx. contradiction.
    + unfold Files.listed, Files.visibleFiles. intros x.
      rewrite !list_elem_of_fmap. intros (f & -> & Hf).
      exists f. split; [reflexivity|].
      apply list_elem_of_In in Hf. apply filter_In in Hf as [Hf _].
      apply list_elem_of_In. exact Hf.
  - intros Hsub Hin. unfold Files.handleFileToggle.
    destruct (bool_decide _); simpl; intros x.
    + rewrite list_elem_of_filter. intros [_ Hx]. apply Hsub, Hx.
    + rewrite elem_of_app, list_elem_of_singleton. intros [Hx| ->]; [apply Hsub, Hx | exact Hin].
Qed.

(** C3 as stated fails on a reload: with files 1 and 2 selected on page 1,
    going to page 2 lists file 3 only and the selection is still 1 and 2; and
    on a deletion: deleting file 1 when file 2 is gone from the fetched set
    leaves 2 selected. *)
Lemma selection_not_pruned_on_reload :
  let paged := Files.loadFiles Scenario.page2 Scenario.page1 in
  let deleted := fst (Files.confirmDelete 1 (inl tt) Scenario.page1_emptied Scenario.page1) in
  (Files.selectedFiles Scenario.page1 ⊆ Files.listed Scenario.page1) /\
  Files.selectedFiles paged = [1%Z; 2%Z] /\
  Files.listed paged = [3%Z] /\
  ~ (Files.selectedFiles paged ⊆ Files.listed paged) /\
  Files.selectedFiles deleted = [2%Z] /\
  Files.listed deleted = [3%Z] /\
  ~ (Files.selectedFiles deleted ⊆ Files.listed deleted).
Proof.
  cbv zeta. split; [|split; [|split; [|split; [|split; [|split]]]]].
  - intros x Hx. exact Hx.
  - reflexivity.
  - reflexivity.
  - intros H. specialize (H 1%Z). cbn in H.
    assert (Hin : (1%Z ∈ [1%Z; 2%Z])) by (apply list_elem_of_here).
    apply H in Hin. apply list_elem_of_singleton in Hin. discriminate.
  - reflexivity.
  - reflexivity.
  - intros H. specialize (H 2%Z).
    change (Files.selectedFiles _) with [2%Z] in H.
    change (Files.listed _) with [3%Z] in H.
    assert (Hin : (2%Z ∈ [2%Z])) by (apply list_elem_of_here).
    apply H in Hin. apply list_elem_of_singleton in Hin. discriminate.
Qed.

(** The other timer of the application, the 5 s poll of the file list, is
    cleared by the cleanup of its effect: after teardown a firing asks for
    nothing. *)
Lemma poll_cleared_on_unmount (s : Files.State) : Files.pollTick (Files.unmount s) = [].
Proof. reflexivity. Qed.

(** A firing of the poll asks for the current page exactly when a file of
    the last fetched set is uploaded or processing. *)
Theorem poll_only_when_in_flight (s : Files.State) :
  Files.polling s = true ->
  ((forall f, f ∈ Files.filesRef s ->
      FileAsset.status f ≠ FileAsset.processing /\ FileAsset.status f ≠ FileAsset.uploaded) ->
   Files.pollTick s = []) /\
  ((exists f, f ∈ Files.filesRef s /\
      (FileAsset.status f = FileAsset.processing \/ FileAsset.status f = FileAsset.uploaded)) ->
   Files.pollTick s = [Files.listFiles (Files.pageRef s)]).
Proof.
  intros Hp. unfold Files.pollTick. rewrite Hp. simpl. split.
  - intros H. replace (existsb Files.inFlight (Files.filesRef s)) with false; [reflexivity|].
    symmetry. apply not_true_is_false. intros He.
    apply existsb_exists in He as (f & Hin & Hf).
    apply list_elem_of_In in Hin. destruct (H f Hin) as [H1 H2].
    unfold Files.inFlight in Hf. destruct (FileAsset.status f); congruence.
  - intros (f & Hin & Hf).
    replace (existsb Files.inFlight (Files.filesRef s)) with true; [reflexivity|].
    symmetry. apply existsb_exists. exists f. split; [apply list_elem_of_In; exact Hin|].
    unfold Files.inFlight. destruct Hf as [-> | ->]; reflexivity.
Qed.

(** The run of the poll: nothing in flight on page 1, a file in processing
    on page 3. *)
Lemma poll_witness :
  Files.pollTick Scenario.page1 = []
  /\ Files.pollTick (Files.loadFiles Scenario.page3 Scenario.page1) = [Files.listFiles 3].
Proof.
  split.
  - apply (poll_only_when_in_flight Scenario.page1 eq_refl).
    intros f Hf. simpl in Hf.
    apply elem_of_cons in Hf as [->|Hf]; [split; discriminate|].
    apply list_elem_of_singleton in Hf as ->. split; discriminate.
  - apply (poll_only_when_in_flight (Files.loadFiles Scenario.page3 Scenario.page1) eq_refl).
    exists (Scenario.asset 4 "d.pdf" FileAsset.processing).
    split; [apply list_elem_of_singleton; reflexivity | left; reflexivity].
Defined.

(** ** The chat view *)

Section ChatFacts.

Import Chat.

Lemma elem_of_without (i : Z) (m : Message.t) (l : list Message.t) :
  m ∈ without i l <-> Message.id m ≠ i /\ m ∈ l.
Proof. unfold without. rewrite list_elem_of_filter. reflexivity. Qed.

Lemma without_snoc_same (i : Z) (m : Message.t) (l : list Message.t) :
  Message.id m = i -> without i (l ++ [m]) = without i l.
Proof.
  intros H. unfold without. rewrite filter_app, filter_cons_False, filter_nil.
  - apply app_nil_r.
  - intros Hne. apply Hne. exact H.
Qed.

Lemma without_fresh (i : Z) (l : list Message.t) :
  (forall m, m ∈ l -> Message.id m ≠ i) -> without i l = l.
Proof.
  intros H. unfold without. induction l as [|m l IH]; [reflexivity|].
  rewrite filter_cons_True by (apply H; left).
  f_equal. apply IH. intros m' Hm'. apply H. right. exact Hm'.
Qed.




(** The last patch is the one that shows. *)
Lemma patch_patch (i : Z) (c c' : Js.text) (cs : list Citation.t) (l : list Message.t) :
  patch i c' cs (patch i c cs l) = patch i c' cs l.
Proof.
  unfold patch. rewrite <- list_fmap_compose. apply list_fmap_ext.
  intros k m _. simpl. destruct (bool_decide (Message.id m = i)) eqn:H.
  - simpl. rewrite H. reflexivity.
  - rewrite H. reflexivity.
Qed.

Lemma patch_snoc (i : Z) (c : Js.text) (cs : list Citation.t) (l : list Message.t)
    (m : Message.t) :
  Message.id m = i -> patch i c cs (l ++ [m]) = patch i c cs l ++ [with_content c (Some cs) m].
Proof.
  intros H. unfold patch. rewrite fmap_app. simpl.
  rewrite bool_decide_eq_true_2 by exact H. reflexivity.
Qed.

(** What [handleSend] has done when it reaches its [await]. *)
Lemma handleSend_begin_Some now iso selected s p s1 :
  handleSend_begin now iso selected s = Some (p, s1) ->
  tempUserMessage p
  = {| Message.id := now; Message.role := Message.user;
       Message.content := Js.trim (input s); Message.file_ids := selected;
       Message.citations := None; Message.created_at := iso |}
  /\ sentConversationId p = currentConversationId s
  /\ messages s1 = messages s ++ [tempUserMessage p]
  /\ currentConversationId s1 = currentConversationId s
  /\ streamingIntervalRef s1 = streamingIntervalRef s
  /\ intervals s1 = intervals s
  /\ nextInterval s1 = nextInterval s
  /\ loading s = false /\ loading s1 = true
  /\ Js.trim (input s) <> [].
Proof.
  unfold handleSend_begin.
  destruct (negb (Js.nonempty (Js.trim (input s))) || loading s) eqn:Hg; [discriminate|].
  apply orb_false_iff in Hg as [Ht Hl]. apply negb_false_iff in Ht.
  intros ?; simplify_eq. simpl. repeat split; try assumption.
  apply nonempty_true. exact Ht.
Qed.

(** What the [catch] block of [loadConversationHistory] does to any state
    it finds: it logs, and nothing else. *)
Lemma loadConversationHistory_rejected (convId : Z) (err : Api.AxiosError) (s : State) :
  let s' := loadConversationHistory convId (inr err) s in
  messages s' = messages s /\
  currentConversationId s' = currentConversationId s /\
  input s' = input s /\
  loading s' = loading s /\
  streamingIntervalRef s' = streamingIntervalRef s /\
  intervals s' = intervals s /\
  console s' = console s ++ [(log, "[Chat] Loading conversation history:");
                             (error, "[Chat] Failed to load conversation history:")].
Proof.
  cbv zeta. unfold loadConversationHistory. simpl.
  rewrite <- app_assoc. repeat split.
Qed.

(** C10, as the code has it.  The effect on the prop [conversationId]
    starts the load of a conversation [c] that is not the tracked one and
    sets the tracked id to [c] in the same turn.  When the GET is then
    rejected, the messages are those from before the call, nothing is
    appended or shown, the input, the pending flag and the timers are as
    before, and the console has the entry of the call and the error entry;
    the tracked id is [c], not the id from before the call.  Whatever state
    the rejection finds, it leaves the messages and the tracked id of that
    state as they are. *)
Theorem history_failure_keeps_messages (c : Z) (err : Api.AxiosError) (s : State) :
  c ≠ 0%Z -> currentConversationId s ≠ Some c ->
  let started := conversationEffect (Some c) s in
  let s' := loadConversationHistory c (inr err) (snd started) in
  fst started = Some c /\
  messages s' = messages s /\
  currentConversationId s' = Some c /\
  input s' = input s /\
  loading s' = loading s /\
  streamingIntervalRef s' = streamingIntervalRef s /\
  intervals s' = intervals s /\
  console s' = console s ++ [(log, "[Chat] Loading conversation history:");
                             (error, "[Chat] Failed to load conversation history:")] /\
  (forall found,
     messages (loadConversationHistory c (inr err) found) = messages found /\
     currentConversationId (loadConversationHistory c (inr err) found)
     = currentConversationId found).
Proof.
  intros H0 Hne. cbv zeta. unfold conversationEffect.
  rewrite (bool_decide_eq_false_2 _ H0).
  rewrite (bool_decide_eq_false_2 (Some c = currentConversationId s)) by congruence.
  simpl. rewrite <- app_assoc. repeat split.
Qed.

(** What the [catch] block of [handleSend] does to any state it finds. *)
Lemma handleSend_rejected_messages p err now' iso' s :
  messages (handleSend_rejected p err now' iso' s)
  = without (Message.id (tempUserMessage p)) (messages s)
    ++ [ {| Message.id := now'; Message.role := Message.assistant;
            Message.content := apology; Message.file_ids := [];
            Message.citations := None; Message.created_at := iso' |} ].
Proof. reflexivity. Qed.

(** C7.  A send whose request is rejected: the temporary user message is
    gone, the sequence ends with one assistant message whose text is the
    fixed apology, every other message was there before the send, the result
    is the same whatever the error was, and the send is no longer pending.
    With a temporary id that no earlier message has, the sequence is the
    earlier one followed by the apology. *)
Theorem send_failure_apologises (now now' : Z) (iso iso' : string) (selected : list Z)
    (notify : bool) (err : Api.AxiosError) (s : State) (p : Pending) (s1 : State) :
  let s2 := fst (handleSend now iso selected notify (inr err) now' iso' s) in
  let errorMessage :=
    {| Message.id := now'; Message.role := Message.assistant;
       Message.content := Js.lit "Sorry, I encountered an error. Please try again.";
       Message.file_ids := []; Message.citations := None; Message.created_at := iso' |} in
  handleSend_begin now iso selected s = Some (p, s1) ->
  messages s2 = without now (messages s) ++ [errorMessage] /\
  (tempUserMessage p ∉ messages s2) /\
  (forall m, m ∈ messages s2 -> m ∈ messages s \/ m = errorMessage) /\
  (forall err', handleSend now iso selected notify (inr err') now' iso' s
                = handleSend now iso selected notify (inr err) now' iso' s) /\
  loading s2 = false /\
  ((forall m, m ∈ messages s -> Message.id m ≠ now) ->
   messages s2 = messages s ++ [errorMessage]).
Proof.
  intros s2 errorMessage Hb.
  destruct (handleSend_begin_Some _ _ _ _ _ _ Hb)
    as (Htemp & _ & Hm1 & _ & _ & _ & _ & _ & _ & _).
  assert (Hid : Message.id (tempUserMessage p) = now) by (rewrite Htemp; reflexivity).
  assert (Hs2 : messages s2 = without now (messages s) ++ [errorMessage]).
  { unfold s2, handleSend. rewrite Hb. simpl.
    rewrite Hid, Hm1. rewrite (without_snoc_same now _ _ Hid). reflexivity. }
  split; [exact Hs2|]. split; [|split; [|split; [|split]]].
  - rewrite Hs2, elem_of_app, elem_of_without, list_elem_of_singleton.
    intros [[Hne _]|Heq]; [apply Hne; exact Hid|].
    rewrite Htemp in Heq. discriminate.
  - intros m. rewrite Hs2, elem_of_app, elem_of_without, list_elem_of_singleton.
    intros [[_ H]|H]; [left|right]; exact H.
  - intros err'. unfold handleSend. rewrite Hb. reflexivity.
  - unfold s2, handleSend. rewrite Hb. reflexivity.
  - intros Hfresh. rewrite Hs2, (without_fresh now _ Hfresh). reflexivity.
Qed.





(** The messages right after [apiClient.sendMessage] resolved, on any state
    the continuation finds. *)
Lemma handleSend_resolved_messages p response notify s :
  let reply := ChatResponse.response response in
  let citations := ChatResponse.citations response in
  let swapped :=
    without (Message.id (tempUserMessage p)) (messages s)
    ++ [ChatResponse.message response; with_content [] (Some citations) reply] in
  messages (fst (handleSend_resolved p response notify s))
  = if (length (Message.content reply) =? 0)%nat
    then patch (Message.id reply) (Message.content reply) citations swapped
    else swapped.
Proof.
  cbv zeta. unfold handleSend_resolved.
  destruct (negb (bool_decide _)); simpl;
    destruct (length _ =? 0)%nat; simpl;
    try reflexivity; destruct (streamingIntervalRef s); reflexivity.
Qed.

Lemma handleSend_resolved_conversation p response notify s :
  let cid := ChatResponse.conversation_id response in
  let run := handleSend_resolved p response notify s in
  (Some cid ≠ sentConversationId p ->
     currentConversationId (fst run) = Some cid /\
     snd run = if notify then [cid] else []) /\
  (Some cid = sentConversationId p ->
     currentConversationId (fst run) = currentConversationId s /\ snd run = []).
Proof.
  cbv zeta. unfold handleSend_resolved. split; intros H.
  - rewrite bool_decide_eq_false_2 by exact H. simpl.
    destruct (length _ =? 0)%nat; simpl;
      [|destruct (streamingIntervalRef s); simpl]; split; reflexivity.
  - rewrite bool_decide_eq_true_2 by exact H. simpl.
    destruct (length _ =? 0)%nat; simpl;
      [|destruct (streamingIntervalRef s); simpl]; split; reflexivity.
Qed.

(** *** The reveal *)

Lemma slice0_length (n : nat) (t : Js.text) :
  length (Js.slice0 n t) = Nat.min n (length t).
Proof. apply length_take. Qed.

Lemma slice0_all (n : nat) (t : Js.text) : length t <= n -> Js.slice0 n t = t.
Proof. apply take_ge. Qed.

Lemma slice0_prefix (n : nat) (t : Js.text) : exists rest, t = Js.slice0 n t ++ rest.
Proof. exists (drop n t). symmetry. apply take_drop. Qed.


Lemma ceil_div_spec (a b : nat) :
  0 < a -> 0 < b -> 1 <= ceil_div a b /\ (ceil_div a b - 1) * b < a <= ceil_div a b * b.
Proof.
  intros Ha Hb. unfold ceil_div.
  pose proof (Nat.div_mod (a + b - 1) b ltac:(lia)) as Hdm.
  pose proof (Nat.mod_upper_bound (a + b - 1) b ltac:(lia)) as Hlt.
  set (q := ((a + b - 1) / b)%nat) in *. set (r := ((a + b - 1) mod b)%nat) in *.
  assert (1 <= q) by (destruct q; [nia | lia]).
  split; [assumption|]. nia.
Qed.

(** The ceiling is the first count of steps that covers the text. *)
Lemma ceil_div_least (a b k : nat) : 0 < a -> 0 < b -> a <= k * b -> ceil_div a b <= k.
Proof.
  intros Ha Hb Hk. destruct (ceil_div_spec a b Ha Hb) as (H1 & H2 & _). nia.
Qed.

(** One firing of a live timer. *)
Lemma tick_live t s r :
  intervals s !! t = Some r ->
  streamingIntervalRef s = Some t ->
  let i := Nat.min (length (fullText r)) (index r + step r) in
  messages (tick t s) = patch (target r) (Js.slice0 i (fullText r)) (cited r) (messages s) /\
  (i < length (fullText r) ->
     intervals (tick t s) !! t = Some (set_index i r) /\
     streamingIntervalRef (tick t s) = Some t) /\
  (length (fullText r) <= i ->
     intervals (tick t s) !! t = None /\
     streamingIntervalRef (tick t s) = None).
Proof.
  intros Hr Href i. unfold tick. rewrite Hr. cbv zeta. fold i. simpl. rewrite Href.
  destruct (Nat.leb_spec (length (fullText r)) i) as [Hle|Hlt]; simpl.
  - split; [reflexivity|]. split; [lia|]. intros _.
    split; [apply lookup_delete_eq | reflexivity].
  - split; [reflexivity|]. split; [|lia]. intros _.
    split; [apply lookup_insert_eq | exact Href].
Qed.

Lemma tick_dead t s : intervals s !! t = None -> tick t s = s.
Proof. intros H. unfold tick. rewrite H. reflexivity. Qed.

Lemma ticks_dead k t s : intervals s !! t = None -> ticks k t s = s.
Proof.
  intros H. induction k as [|k IH]; [reflexivity|].
  simpl. rewrite (tick_dead t s H). exact IH.
Qed.

Lemma ticks_add a b t s : ticks (a + b) t s = ticks b t (ticks a t s).
Proof.
  revert s. induction a as [|a IH]; intros s; [reflexivity|]. simpl. apply IH.
Qed.

(** While the index stays short of the text, [k] firings move it by [k]
    steps and show the prefix of that length. *)
Lemma ticks_running t k :
  forall s r,
    intervals s !! t = Some r ->
    streamingIntervalRef s = Some t ->
    index r + k * step r < length (fullText r) ->
    intervals (ticks k t s) !! t = Some (set_index (index r + k * step r) r) /\
    streamingIntervalRef (ticks k t s) = Some t /\
    messages (ticks k t s)
    = match k with
      | O => messages s
      | S _ => patch (target r) (Js.slice0 (index r + k * step r) (fullText r)) (cited r)
                 (messages s)
      end.
Proof.
  induction k as [|k IH]; intros s r Hr Href Hlt.
  - simpl. rewrite Nat.add_0_r. destruct r; simpl. repeat split; assumption.
  - simpl ticks.
    destruct (tick_live t s r Hr Href) as (Hm & Hrun & _). cbv zeta in Hm, Hrun.
    assert (Hi : Nat.min (length (fullText r)) (index r + step r)
                 = index r + step r) by lia.
    rewrite Hi in Hm, Hrun.
    destruct Hrun as [Hr' Href']; [simpl in Hlt; lia|].
    destruct (IH (tick t s) (set_index (index r + step r) r) Hr' Href') as (H1 & H2 & H3).
    { simpl in *. lia. }
    simpl in H1, H3.
    replace (index r + step r + k * step r) with (index r + S k * step r) in * by (simpl; lia).
    split; [exact H1|]. split; [exact H2|].
    rewrite H3. destruct k as [|k]; [rewrite Hm; f_equal; f_equal; simpl; lia|].
    rewrite Hm. apply patch_patch.
Qed.

(** The interval a resolved send with a non-empty answer sets up. *)
Lemma handleSend_resolved_timer p response notify s :
  let reply := ChatResponse.response response in
  let fullText := Message.content reply in
  let s2 := fst (handleSend_resolved p response notify s) in
  fullText <> [] ->
  streamingIntervalRef s2 = Some (nextInterval s) /\
  intervals s2 !! nextInterval s
  = Some {| fullText := fullText;
            step := Nat.max 10 (length fullText / 30);
            index := 0;
            target := Message.id reply;
            cited := ChatResponse.citations response |} /\
  messages s2
  = without (Message.id (tempUserMessage p)) (messages s)
    ++ [ChatResponse.message response;
        with_content [] (Some (ChatResponse.citations response)) reply].
Proof.
  intros reply fullText s2 Hne.
  assert (Hm := handleSend_resolved_messages p response notify s). cbv zeta in Hm.
  unfold s2, handleSend_resolved in *. fold reply fullText in Hm |- *.
  destruct fullText as [|a r] eqn:Ht; [congruence|].
  destruct (negb (bool_decide _)); simpl in *;
    destruct (streamingIntervalRef s); simpl;
    (split; [reflexivity|]; split; [apply lookup_insert_eq | exact Hm]).
Qed.

(** The timer of a resolved send with a non-empty answer, firing by
    firing: short of [n] firings it is live with its index at [k * step];
    firing [k + 1] shows the prefix of length [min L ((k + 1) * step)], and
    clears the timer once that covers the text. *)
Lemma reveal_core (p : Pending) (response : ChatResponse.t) (notify : bool) (s : State) :
  let reply := ChatResponse.response response in
  let citations := ChatResponse.citations response in
  let fullText := Message.content reply in
  let L := length fullText in
  let step := Nat.max 10 (L / 30) in
  let n := ceil_div L step in
  let s2 := fst (handleSend_resolved p response notify s) in
  let t := nextInterval s in
  let shown k := Js.slice0 (Nat.min L (k * step)) fullText in
  fullText <> [] ->
  0 < L /\ 0 < step /\
  (forall k, k < n ->
     k * step < L /\
     streamingIntervalRef (ticks k t s2) = Some t /\
     is_Some (intervals (ticks k t s2) !! t)) /\
  (forall j, j < n ->
     messages (ticks (S j) t s2)
     = patch (Message.id reply) (shown (S j)) citations (messages s2) /\
     (L <= S j * step ->
        intervals (ticks (S j) t s2) !! t = None /\
        streamingIntervalRef (ticks (S j) t s2) = None)).
Proof.
  intros reply citations fullText L step n s2 t shown Hne.
  destruct (handleSend_resolved_timer p response notify s Hne) as (Href & Hr0 & Hm0).
  fold reply citations fullText L step s2 t in Href, Hr0, Hm0.
  set (r0 := {| Chat.fullText := fullText; Chat.step := step; index := 0;
                target := Message.id reply; cited := citations |}) in *.
  assert (HL : 0 < L) by (unfold L; destruct fullText; [congruence | simpl; lia]).
  assert (Hstep : 0 < step) by (unfold step; lia).
  destruct (ceil_div_spec L step HL Hstep) as (Hn1 & Hlo & Hhi). fold n in Hn1, Hlo, Hhi.
  assert (Hshort : forall k, k < n -> k * step < L) by (intros k Hk; nia).
  assert (Hrun : forall k, k < n ->
            intervals (ticks k t s2) !! t = Some (set_index (k * step) r0) /\
            streamingIntervalRef (ticks k t s2) = Some t /\
            messages (ticks k t s2)
            = match k with
              | O => messages s2
              | S _ => patch (Message.id reply) (Js.slice0 (k * step) fullText) citations
                         (messages s2)
              end).
  { intros k Hk. apply (ticks_running t k s2 r0 Hr0 Href). simpl. apply Hshort, Hk. }
  split; [exact HL|]. split; [exact Hstep|]. split.
  - intros k Hk. destruct (Hrun k Hk) as (Hi & Hf & _).
    split; [apply Hshort, Hk|]. split; [exact Hf|]. rewrite Hi. eauto.
  - intros j Hj. destruct (Hrun j Hj) as (Hi & Hf & Hm).
    replace (S j) with (j + 1) by lia. rewrite ticks_add. simpl ticks.
    destruct (tick_live t _ _ Hi Hf) as (Hm' & _ & Hend). cbv zeta in Hm', Hend.
    simpl in Hm', Hend.
    replace (j * step + step) with ((j + 1) * step) in Hm', Hend by lia.
    fold L in Hm', Hend. split.
    + rewrite Hm', Hm. unfold shown. destruct j; [reflexivity | apply patch_patch].
    + intros Hcover. apply Hend. lia.
Qed.

(** C8.  A non-empty answer of length [L], counted as [fullText.length]
    counts it, is revealed in steps of [max 10 (L / 30)].  With [n] the
    ceiling of [L / step] (the least number of steps that covers [L]): after
    [k] ticks, for [k] from 1 to [n], the assistant message shows the prefix
    of length [min L (k * step)] of the text; before tick [n] the timer is
    live and the text is not yet complete; tick [n] shows the whole text and
    clears the timer, and later ticks change nothing. *)
Theorem reveal_in_steps (p : Pending) (response : ChatResponse.t) (notify : bool)
    (s : State) :
  let reply := ChatResponse.response response in
  let citations := ChatResponse.citations response in
  let fullText := Message.content reply in
  let L := length fullText in
  let step := Nat.max 10 (L / 30) in
  let n := ceil_div L step in
  let s2 := fst (handleSend_resolved p response notify s) in
  let t := nextInterval s in
  let shown k := Js.slice0 (Nat.min L (k * step)) fullText in
  fullText <> [] ->
  (L <= n * step /\ forall k, L <= k * step -> n <= k) /\
  streamingIntervalRef s2 = Some t /\
  (forall k, 1 <= k <= n ->
     messages (ticks k t s2) = patch (Message.id reply) (shown k) citations (messages s2) /\
     last (messages (ticks k t s2)) = Some (with_content (shown k) (Some citations) reply) /\
     length (shown k) = Nat.min L (k * step) /\
     exists rest, fullText = shown k ++ rest) /\
  (forall k, k < n ->
     k * step < L /\
     streamingIntervalRef (ticks k t s2) = Some t /\
     is_Some (intervals (ticks k t s2) !! t)) /\
  shown n = fullText /\
  intervals (ticks n t s2) !! t = None /\
  streamingIntervalRef (ticks n t s2) = None /\
  (forall k, n <= k -> ticks k t s2 = ticks n t s2).
Proof.
  intros reply citations fullText L step n s2 t shown Hne.
  destruct (handleSend_resolved_timer p response notify s Hne) as (Href & _ & Hm0).
  fold reply citations fullText L step s2 t in Href, Hm0.
  destruct (reveal_core p response notify s Hne) as (HL & Hstep & Hrun & Hnext).
  fold reply citations fullText L step n s2 t shown in HL, Hstep, Hrun, Hnext.
  destruct (ceil_div_spec L step HL Hstep) as (Hn1 & Hlo & Hhi). fold n in Hn1, Hlo, Hhi.
  split; [split; [lia | intros k Hk; apply (ceil_div_least L step k HL Hstep Hk)]|].
  split; [exact Href|]. split; [|split; [|split; [|split; [|split]]]].
  - intros k [Hk1 Hkn]. destruct k as [|j]; [lia|].
    destruct (Hnext j ltac:(lia)) as (Hm & _).
    split; [exact Hm|]. split; [|split].
    + rewrite Hm, Hm0.
      change (?l ++ [?a; ?b]) with (l ++ [a] ++ [b]). rewrite app_assoc.
      rewrite patch_snoc by reflexivity. apply last_snoc.
    + unfold shown. rewrite slice0_length. fold L. lia.
    + apply slice0_prefix.
  - exact Hrun.
  - unfold shown. apply slice0_all. fold L. lia.
  - destruct n as [|j]; [lia|]. apply (Hnext j); lia.
  - destruct n as [|j]; [lia|]. apply (Hnext j); lia.
  - intros k Hk. replace k with (n + (k - n)) by lia. rewrite ticks_add.
    apply ticks_dead. destruct n as [|j]; [lia|]. apply (Hnext j); lia.
Qed.


(** A history load that succeeds puts the returned messages in place of the
    local ones and tracks the loaded id. *)
Theorem history_replaces_messages (convId : Z) (conversation : Conversation.t) (s : State) :
  let s' := loadConversationHistory convId (inl conversation) s in
  messages s' = Conversation.messages conversation /\
  currentConversationId s' = Some convId.
Proof. split; reflexivity. Qed.

End ChatFacts.

(** The run of C10: the view is in conversation 42, the prop goes to 41 and
    the load of 41 fails. *)
Lemma history_failure_witness :
  let s' := Chat.loadConversationHistory 41 (inr Scenario.network_error)
              (snd (Chat.conversationEffect (Some 41%Z) (Chat.initial (Some 42%Z) 1))) in
  Chat.messages s' = [] /\ Chat.currentConversationId s' = Some 41%Z.
Proof.
  destruct (history_failure_keeps_messages 41 Scenario.network_error
              (Chat.initial (Some 42%Z) 1) ltac:(discriminate) ltac:(discriminate))
    as (_ & Hm & Hc & _).
  split; [exact Hm | exact Hc].
Defined.

(** C10 as stated fails at every failed load the view can make: the load is
    started by the effect on the prop, which sets the tracked id to the
    requested one in the same turn.  Here the view tracks conversation 42
    before the call, and 41 once the load of 41 has failed. *)
Lemma failed_history_load_moves_tracked_id :
  let before := Chat.initial (Some 42%Z) 1 in
  let started := Chat.conversationEffect (Some 41%Z) before in
  let after := Chat.loadConversationHistory 41 (inr Scenario.network_error) (snd started) in
  fst started = Some 41%Z
  /\ Chat.currentConversationId before = Some 42%Z
  /\ Chat.currentConversationId after = Some 41%Z
  /\ Chat.currentConversationId after <> Chat.currentConversationId before.
Proof. cbv zeta. repeat split; try reflexivity. discriminate. Qed.

(** The run of C7: the question is sent and the request fails. *)
Lemma send_failure_witness :
  Chat.messages
    (fst (Chat.handleSend Scenario.t_send Scenario.iso_send [2%Z] true
            (inr Scenario.network_error) Scenario.t_fail Scenario.iso_fail Scenario.typed))
  = [ {| Message.id := Scenario.t_fail; Message.role := Message.assistant;
         Message.content := Js.lit "Sorry, I encountered an error. Please try again.";
         Message.file_ids := []; Message.citations := None;
         Message.created_at := Scenario.iso_fail |} ].
Proof.
  destruct (send_failure_apologises Scenario.t_send Scenario.t_fail
              Scenario.iso_send Scenario.iso_fail [2%Z] true Scenario.network_error
              Scenario.typed _ _ eq_refl) as (H & _).
  exact H.
Defined.



(** The state and the pending send of the scenario are those [handleSend]
    reaches at its [await]. *)
Example scenario_await :
  Chat.handleSend_begin Scenario.t_send Scenario.iso_send [2%Z] Scenario.typed
  = Some (Scenario.pending, Scenario.awaiting).
Proof. reflexivity. Qed.

(** The run of C8: the 25 characters of the answer come in three ticks. *)
Lemma reveal_witness :
  let s2 := fst (Chat.handleSend_resolved Scenario.pending (Scenario.answered 7 8) true
                   Scenario.awaiting) in
  Chat.ceil_div 25 10 = 3%nat
  /\ (Message.content <$> last (Chat.messages (Chat.ticks 1 1%positive s2)))
     = Some (Js.lit "It lists t")
  /\ (Message.content <$> last (Chat.messages (Chat.ticks 2 1%positive s2)))
     = Some (Js.lit "It lists the open is")
  /\ (Message.content <$> last (Chat.messages (Chat.ticks 3 1%positive s2)))
     = Some (Js.lit "It lists the open issues.")
  /\ Chat.streamingIntervalRef (Chat.ticks 3 1%positive s2) = None.
Proof.
  pose proof (reveal_in_steps Scenario.pending (Scenario.answered 7 8) true
                Scenario.awaiting ltac:(apply nonempty_true; reflexivity)) as H.
  cbv zeta in H. destruct H as (_ & _ & Hk & _ & _ & _ & Hend & _).
  cbv zeta. split; [reflexivity|].
  split; [exact (f_equal (fmap (M:=option) Message.content)
                   (proj1 (proj2 (Hk 1%nat ltac:(vm_compute; lia)))))|].
  split; [exact (f_equal (fmap (M:=option) Message.content)
                   (proj1 (proj2 (Hk 2%nat ltac:(vm_compute; lia)))))|].
  split; [exact (f_equal (fmap (M:=option) Message.content)
                   (proj1 (proj2 (Hk 3%nat ltac:(vm_compute; lia)))))|].
  exact Hend.
Defined.

(** Teardown runs no code of the view, so it clears no timer. *)
Lemma unmount_clears_nothing (s : Chat.State) :
  Chat.intervals (Chat.unmount s) = Chat.intervals s /\
  Chat.streamingIntervalRef (Chat.unmount s) = Chat.streamingIntervalRef s.
Proof. repeat split. Qed.

(** C4, on the code.  The view is torn down after the first tick of the
    reveal of a 25-character answer, which had shown ten characters.  The
    interval is still registered and the ref still holds it; its next two
    firings run and move the index of the closure from 10 to 20 and to 25;
    only then does the interval clear itself and empty the ref. *)
Theorem reveal_timer_survives_unmount :
  let s2 := fst (Chat.handleSend Scenario.t_send Scenario.iso_send [2%Z] true
                   (inl (Scenario.answered 7 8)) Scenario.t_fail Scenario.iso_fail
                   Scenario.typed) in
  let torn := Chat.unmount (Chat.tick 1%positive s2) in
  Chat.mounted torn = false
  /\ Message.content <$> Chat.messages (Chat.tick 1%positive s2)
     = [Js.lit "What is in b.pdf?"; Js.lit "It lists t"]
  /\ Chat.streamingIntervalRef torn = Some 1%positive
  /\ Chat.index <$> (Chat.intervals torn !! 1%positive) = Some 10%nat
  /\ Chat.index <$> (Chat.intervals (Chat.tick 1%positive torn) !! 1%positive) = Some 20%nat
  /\ Chat.streamingIntervalRef (Chat.tick 1%positive torn) = Some 1%positive
  /\ Chat.intervals (Chat.ticks 2 1%positive torn) !! 1%positive = None
  /\ Chat.streamingIntervalRef (Chat.ticks 2 1%positive torn) = None.
Proof. cbv zeta. repeat split; vm_compute; reflexivity. Qed.

(** ** The file list: filters and the selection *)

Lemma filter_length_split {A} (f g : A -> bool) (l : list A) :
  (forall x, g x = negb (f x)) ->
  (length (List.filter f l) + length (List.filter g l) = length l)%nat.
Proof.
  intros H. induction l as [|x l IH]; [reflexivity|].
  simpl. rewrite (H x). destruct (f x); simpl; lia.
Qed.

(** The filters of the list.  [all] shows every file; [docs] and [images]
    split the page between them, a file counting as an image as soon as its
    type, in lower case, is not one of pdf, doc, docx and txt; whatever the
    filter, the files shown are files of the page, in the page's order, and
    filtering does not touch the selection. *)
Theorem filters_split_the_page (s : Files.State) :
  let shown flt := Files.visibleFiles (Files.setFilter flt s) in
  shown Files.all = Files.files s
  /\ (length (shown Files.docs) + length (shown Files.images) = length (Files.files s))%nat
  /\ (forall f, f ∈ Files.files s ->
        (f ∈ shown Files.images <-> f ∉ shown Files.docs)
        /\ (f ∈ shown Files.docs
            <-> Upload.toLowerCase (FileAsset.file_type f) ∈ ["pdf"; "doc"; "docx"; "txt"])
        /\ (f ∈ shown Files.failed <-> FileAsset.status f = FileAsset.failed))
  /\ (forall flt, shown flt `sublist_of` Files.files s
                  /\ Files.selectedFiles (Files.setFilter flt s) = Files.selectedFiles s).
Proof.
  intros shown.
  assert (Hvis : forall flt, shown flt = List.filter (Files.visible flt) (Files.files s)).
  { reflexivity. }
  assert (Hin : forall flt f, f ∈ Files.files s ->
            (f ∈ shown flt <-> Files.visible flt f = true)).
  { intros flt f Hf. rewrite Hvis, !list_elem_of_In, filter_In, <- !list_elem_of_In. tauto. }
  clearbody shown.
  split; [|split; [|split]].
  - rewrite Hvis. clear. induction (Files.files s) as [|f l IH]; [reflexivity|].
    simpl. f_equal. exact IH.
  - rewrite !Hvis. apply filter_length_split.
    intros f. simpl. destruct (Files.extType f); reflexivity.
  - intros f Hf. rewrite !(Hin _ f Hf). simpl. unfold Files.extType.
    split; [|split].
    + case_bool_decide; simpl; split; congruence.
    + case_bool_decide; simpl; split; try congruence; tauto.
    + destruct (FileAsset.status f); split; congruence.
  - intros flt. split; [|reflexivity]. rewrite Hvis. clear.
    induction (Files.files s) as [|f l IH]; [constructor|].
    simpl. destruct (Files.visible flt f); [apply sublist_skip|apply sublist_cons]; exact IH.
Qed.

(** Clicking a file's checkbox flips that file in the selection and no
    other: its id is selected afterwards exactly when it was not before, and
    every other id stays as it was.  The rest of the list state is not
    touched, and a second click on an unselected file gives back the very
    same selection. *)
Theorem toggle_flips_one_id (fileId : Z) (s : Files.State) :
  let s' := Files.handleFileToggle fileId s in
  (fileId ∈ Files.selectedFiles s' <-> fileId ∉ Files.selectedFiles s)
  /\ (forall id, id <> fileId ->
        (id ∈ Files.selectedFiles s' <-> id ∈ Files.selectedFiles s))
  /\ Files.set_selectedFiles (Files.selectedFiles s) s' = s
  /\ (forall id, id ∈ Files.selectedFiles (Files.handleFileToggle fileId s')
        <-> id ∈ Files.selectedFiles s)
  /\ (fileId ∉ Files.selectedFiles s ->
        Files.selectedFiles (Files.handleFileToggle fileId s') = Files.selectedFiles s).
Proof.
  cbv zeta.
  assert (Hfix : forall l : list Z, fileId ∉ l -> filter (fun id => id ≠ fileId) l = l).
  { intros l Hl. induction l as [|x l IH]; [reflexivity|].
    apply not_elem_of_cons in Hl as [Hx Hl].
    rewrite filter_cons_True by congruence. f_equal. apply IH, Hl. }
  assert (Hsnoc : forall l : list Z, fileId ∉ l ->
            filter (fun id => id ≠ fileId) (l ++ [fileId]) = l).
  { intros l Hl. rewrite filter_app, (Hfix l Hl).
    rewrite filter_cons_False by (intros H; apply H; reflexivity).
    rewrite filter_nil. apply app_nil_r. }
  assert (Hsel : forall s0,
            Files.selectedFiles (Files.handleFileToggle fileId s0)
            = if bool_decide (fileId ∈ Files.selectedFiles s0)
              then filter (fun id => id ≠ fileId) (Files.selectedFiles s0)
              else Files.selectedFiles s0 ++ [fileId]).
  { intros s0. unfold Files.handleFileToggle. case_bool_decide; reflexivity. }
  split; [|split; [|split; [|split]]].
  - rewrite Hsel. case_bool_decide as Hin.
    + rewrite list_elem_of_filter. tauto.
    + rewrite elem_of_app, list_elem_of_singleton. tauto.
  - intros id Hid. rewrite Hsel. case_bool_decide as Hin.
    + rewrite list_elem_of_filter. tauto.
    + rewrite elem_of_app, list_elem_of_singleton. tauto.
  - unfold Files.handleFileToggle. destruct s. simpl. case_bool_decide; reflexivity.
  - intros id. rewrite (Hsel (Files.handleFileToggle fileId s)), (Hsel s).
    destruct (decide (fileId ∈ Files.selectedFiles s)) as [Hin|Hin].
    + rewrite (bool_decide_eq_true_2 _ Hin).
      rewrite bool_decide_eq_false_2 by (rewrite list_elem_of_filter; tauto).
      rewrite elem_of_app, list_elem_of_singleton, list_elem_of_filter.
      destruct (decide (id = fileId)) as [->|Hne]; tauto.
    + rewrite (bool_decide_eq_false_2 _ Hin).
      rewrite bool_decide_eq_true_2
        by (rewrite elem_of_app, list_elem_of_singleton; tauto).
      rewrite (Hsnoc _ Hin). tauto.
  - intros Hout. rewrite (Hsel (Files.handleFileToggle fileId s)), (Hsel s).
    rewrite (bool_decide_eq_false_2 _ Hout).
    rewrite bool_decide_eq_true_2
      by (rewrite elem_of_app, list_elem_of_singleton; tauto).
    apply Hsnoc, Hout.
Qed.

(** Select all goes by the two counts alone.  When the selection is as long
    as the list on display it is emptied, whatever it holds; otherwise it
    becomes the ids on display, in their order, and a second click then
    empties it.  Files and filter stay as they are. *)
Theorem select_all_by_count (s : Files.State) :
  let shown := FileAsset.id <$> Files.visibleFiles s in
  let s' := Files.handleSelectAll s in
  Files.visibleFiles s' = Files.visibleFiles s
  /\ Files.set_selectedFiles (Files.selectedFiles s) s' = s
  /\ (length (Files.selectedFiles s) = length shown -> Files.selectedFiles s' = [])
  /\ (length (Files.selectedFiles s) <> length shown ->
        Files.selectedFiles s' = shown
        /\ Files.selectedFiles (Files.handleSelectAll s') = [])
  /\ (Files.selectedFiles s' = [] \/ Files.selectedFiles s' = shown).
Proof.
  cbv zeta. rewrite length_fmap.
  assert (Hsel : forall s0,
            Files.selectedFiles (Files.handleSelectAll s0)
            = if (length (Files.selectedFiles s0) =? length (Files.visibleFiles s0))%nat
              then [] else FileAsset.id <$> Files.visibleFiles s0).
  { intros s0. unfold Files.handleSelectAll.
    destruct (_ =? _)%nat; reflexivity. }
  assert (Hvis : forall s0,
            Files.visibleFiles (Files.handleSelectAll s0) = Files.visibleFiles s0).
  { intros s0. unfold Files.handleSelectAll.
    destruct (_ =? _)%nat; reflexivity. }
  split; [apply Hvis|]. split.
  { unfold Files.handleSelectAll. destruct s. simpl.
    destruct (_ =? _)%nat; reflexivity. }
  rewrite (Hsel (Files.handleSelectAll s)), Hvis, (Hsel s).
  destruct (Nat.eqb_spec (length (Files.selectedFiles s)) (length (Files.visibleFiles s)))
    as [Heq|Hne].
  - split; [reflexivity|]. split; [contradiction|]. left. reflexivity.
  - split; [contradiction|]. split; [|right; reflexivity].
    intros _. split; [reflexivity|].
    rewrite length_fmap, Nat.eqb_refl. reflexivity.
Qed.

(** *** Renaming *)

Lemma or_else_nonempty (m d : string) : d <> "" -> Js.or_else (Some m) d <> "".
Proof. intros Hd. destruct m; simpl; [exact Hd|discriminate]. Qed.

(** Submitting a rename.  The name is what is in the rename box without
    the white space at its two ends ([trim], which strips every white space
    and line terminator of the language).  A name that is blank once
    trimmed is not sent: no request is made and the editor stays open with
    what was typed.  Otherwise exactly one PATCH goes out, for the file and
    with the trimmed name; the page is reloaded exactly when the PATCH
    succeeded, a failed PATCH leaves the files on display and shows a
    message instead; either way the editor is closed.  The selection is
    never touched. *)
Theorem rename_sends_trimmed_name (fileId : Z)
    (updated : FileAsset.t + Api.AxiosError)
    (reload : FileListResponse.t + Api.AxiosError)
    (e : Rename.Editor) (s : Files.State) :
  let run := Rename.submitRename fileId updated reload e s in
  let name := Js.trim (Rename.renameValue e) in
  (exists l r, Rename.renameValue e = l ++ name ++ r
               /\ Forall (fun u => Js.is_white_space u = true) l
               /\ Forall (fun u => Js.is_white_space u = true) r)
  /\ (forall u, head name = Some u -> Js.is_white_space u = false)
  /\ (forall u, last name = Some u -> Js.is_white_space u = false)
  /\ (name = [] -> run = (e, s, []))
  /\ (name <> [] ->
        fst (fst run) = Rename.closed
        /\ (forall file, updated = inl file ->
              snd run = [Rename.updateFile fileId name; Rename.listFiles (Files.page s)]
              /\ snd (fst run) = Files.loadFiles reload s)
        /\ (forall err, updated = inr err ->
              snd run = [Rename.updateFile fileId name]
              /\ Files.files (snd (fst run)) = Files.files s
              /\ Files.error (snd (fst run)) <> ""))
  /\ Files.selectedFiles (snd (fst run)) = Files.selectedFiles s.
Proof.
  cbv zeta. destruct (trim_spec (Rename.renameValue e)) as (Hcut & Hhead & Hlast).
  split; [exact Hcut|]. split; [exact Hhead|]. split; [exact Hlast|].
  unfold Rename.submitRename.
  destruct (Js.nonempty (Js.trim (Rename.renameValue e))) eqn:Ht; simpl.
  - apply nonempty_true in Ht. split; [contradiction|]. split.
    + intros _. split; [destruct updated; reflexivity|].
      split.
      * intros file ->. split; reflexivity.
      * intros err ->. simpl. split; [reflexivity|]. split; [reflexivity|].
        apply or_else_nonempty. discriminate.
    + destruct updated as [file|err]; simpl; [|reflexivity].
      destruct reload; reflexivity.
  - split; [reflexivity|]. split; [|reflexivity].
    intros Hne. apply nonempty_true in Hne. congruence.
Qed.

(** ** What a send puts on the wire *)

(** The chat request of a send that passes the guard.  Its message is the
    typed text without the white space at its two ends ([trim], which strips
    every white space and line terminator of the language), and is not
    empty; it is word for word the content of the bubble shown at once.
    Its [file_ids] are the ids selected at the time, also when none is
    selected (the caller passes [undefined] then, and the endpoint turns
    that into the empty list).  Its conversation is the one the view was
    in. *)
Theorem send_request_payload (now : Z) (iso : string) (selected : list Z)
    (s : Chat.State) (p : Chat.Pending) (s1 : Chat.State) :
  Chat.handleSend_begin now iso selected s = Some (p, s1) ->
  let request := Endpoints.sent p in
  request = {| Endpoints.message := Js.trim (Chat.input s);
               Endpoints.conversation_id := Chat.currentConversationId s;
               Endpoints.file_ids := selected |}
  /\ Endpoints.message request <> []
  /\ (exists l r, Chat.input s = l ++ Endpoints.message request ++ r
                  /\ Forall (fun u => Js.is_white_space u = true) l
                  /\ Forall (fun u => Js.is_white_space u = true) r)
  /\ (forall u, head (Endpoints.message request) = Some u -> Js.is_white_space u = false)
  /\ (forall u, last (Endpoints.message request) = Some u -> Js.is_white_space u = false)
  /\ last (Chat.messages s1) = Some (Chat.tempUserMessage p)
  /\ Message.content (Chat.tempUserMessage p) = Endpoints.message request
  /\ Message.file_ids (Chat.tempUserMessage p) = Endpoints.file_ids request
  /\ Chat.input s1 = [] /\ Chat.loading s1 = true.
Proof.
  unfold Chat.handleSend_begin.
  destruct (Js.nonempty (Js.trim (Chat.input s))) eqn:Ht; [|discriminate].
  destruct (Chat.loading s); [discriminate|]. simpl.
  intros [= <- <-]. cbv zeta. unfold Endpoints.sent, Endpoints.sendMessage. simpl.
  apply nonempty_true in Ht.
  assert (Hids : default [] (if (0 <? length selected)%nat then Some selected else None)
                 = selected).
  { destruct selected; reflexivity. }
  rewrite Hids.
  destruct (trim_spec (Chat.input s)) as (Hcut & Hhead & Hlast).
  split; [reflexivity|]. split; [exact Ht|].
  split; [exact Hcut|]. split; [exact Hhead|]. split; [exact Hlast|].
  split; [apply last_snoc|]. repeat split.
Qed.

(** A send: a question typed with a no-break space and a blank before it
    and an ideographic space after it, two files selected. *)
Lemma send_request_witness :
  exists p s1,
    Chat.handleSend_begin Scenario.t_send Scenario.iso_send [2%Z; 5%Z]
      (Chat.setInput ([160; 32]%N ++ Js.lit "What is in b.pdf?" ++ [12288]%N)
         (Chat.initial None 1)) = Some (p, s1)
    /\ Endpoints.sent p
       = {| Endpoints.message := Js.lit "What is in b.pdf?";
            Endpoints.conversation_id := None;
            Endpoints.file_ids := [2%Z; 5%Z] |}.
Proof.
  eexists _, _. split; [reflexivity|].
  refine (eq_trans
            (proj1 (send_request_payload Scenario.t_send Scenario.iso_send [2%Z; 5%Z]
                      (Chat.setInput ([160; 32]%N ++ Js.lit "What is in b.pdf?" ++ [12288]%N)
                         (Chat.initial None 1))
                      _ _ eq_refl)) _).
  reflexivity.
Defined.

(** ** The file list over its life *)

(** The two refs of the list never go stale: after any sequence of events
    they hold the files and the page on display.  So the 5 s poll asks for
    a reload exactly while the list is mounted and shows a file that is
    uploaded or processing, and both the poll and the dashboard's refresh
    reload the page on display. *)
Theorem refs_follow_display (s : Files.State) :
  rtc Listing.event Listing.initial s ->
  Files.filesRef s = Files.files s
  /\ Files.pageRef s = Files.page s
  /\ Files.pollTick s
     = (if Files.polling s && Listing.hasInFlight s
        then [Files.listFiles (Files.page s)] else [])
  /\ Dashboard.refresh s = [Files.listFiles (Files.page s)].
Proof.
  intros Hrun.
  assert (Hinv : Files.filesRef s = Files.files s /\ Files.pageRef s = Files.page s).
  { revert s Hrun. apply rtc_ind_r; [split; reflexivity|].
    intros s s' _ Hev [Hf Hp].
    destruct Hev as [s|s|answer s|flt s|s|fileId s|fileId s|fileId deleted reload s
                    |fileId updated reload e s]; simpl; try (split; assumption).
    - destruct answer; simpl; split; auto.
    - unfold Files.handleSelectAll. destruct (_ =? _)%nat; simpl; split; assumption.
    - unfold Files.handleFileToggle. case_bool_decide; simpl; split; assumption.
    - destruct deleted; simpl; [|split; assumption].
      destruct reload; simpl; split; auto.
    - unfold Rename.submitRename.
      destruct (negb _); simpl; [split; assumption|].
      destruct updated; simpl; [|split; assumption].
      destruct reload; simpl; split; auto. }
  destruct Hinv as [Hf Hp].
  split; [exact Hf|]. split; [exact Hp|].
  unfold Files.pollTick, Dashboard.refresh, Listing.hasInFlight.
  rewrite Hf, Hp. split; reflexivity.
Qed.

(** The list mounts, loads a page with a file being processed, and the
    user filters and selects: the poll reloads that page. *)
Lemma refs_follow_display_witness :
  let s := Files.handleFileToggle 4
             (Files.setFilter Files.docs
                (Files.loadFiles Scenario.page3 (fst (Files.mount Listing.initial)))) in
  Files.filesRef s = Files.files s
  /\ Files.pageRef s = Files.page s
  /\ Files.pollTick s
     = (if Files.polling s && Listing.hasInFlight s
        then [Files.listFiles (Files.page s)] else [])
  /\ Dashboard.refresh s = [Files.listFiles (Files.page s)].
Proof.
  cbv zeta. apply refs_follow_display.
  eapply rtc_l; [apply Listing.on_mount|].
  eapply rtc_l; [apply (Listing.on_load Scenario.page3)|].
  eapply rtc_l; [apply (Listing.on_filter Files.docs)|].
  eapply rtc_l; [apply (Listing.on_toggle 4)|].
  apply rtc_refl.
Defined.

(** ** The dashboard *)

Lemma steps_app (evs1 evs2 : list Dashboard.Event) (s : Dashboard.State) :
  Dashboard.steps (evs1 ++ evs2) s
  = (fst (Dashboard.steps evs2 (fst (Dashboard.steps evs1 s))),
     (snd (Dashboard.steps evs1 s)
      + snd (Dashboard.steps evs2 (fst (Dashboard.steps evs1 s))))%nat).
Proof.
  revert s. induction evs1 as [|ev evs1 IH]; intros s.
  - simpl. destruct (Dashboard.steps evs2 s). reflexivity.
  - simpl. destruct (Dashboard.step ev s) as [s1 n1].
    rewrite IH. destruct (Dashboard.steps evs1 s1) as [s2 n2]. simpl.
    f_equal. lia.
Qed.

Lemma step_banners (ev : Dashboard.Event) (s : Dashboard.State) :
  Dashboard.uploadError s = "" \/ Dashboard.uploadSuccess s = "" ->
  Dashboard.uploadError (fst (Dashboard.step ev s)) = ""
  \/ Dashboard.uploadSuccess (fst (Dashboard.step ev s)) = "".
Proof.
  intros H. destruct ev as [file|error|i]; simpl; [left; reflexivity|right; reflexivity|].
  destruct (Dashboard.pending s !! i) as [[| |]|]; simpl; auto.
Qed.

Lemma steps_banners (evs : list Dashboard.Event) (s : Dashboard.State) :
  Dashboard.uploadError s = "" \/ Dashboard.uploadSuccess s = "" ->
  Dashboard.uploadError (fst (Dashboard.steps evs s)) = ""
  \/ Dashboard.uploadSuccess (fst (Dashboard.steps evs s)) = "".
Proof.
  revert s. induction evs as [|ev evs IH]; intros s H; [exact H|].
  simpl. pose proof (step_banners ev s H) as H1.
  destruct (Dashboard.step ev s) as [s1 n1].
  specialize (IH s1 H1). destruct (Dashboard.steps evs s1). exact IH.
Qed.

(** The dashboard never shows the success banner and the error banner
    together, whatever uploads finish or fail and in whatever order the
    timers fire.  Right after an upload completed the success banner names
    the file and the error banner is gone; right after an upload failed the
    error banner is the message reported and the success banner is gone. *)
Theorem banners_exclude_each_other (evs : list Dashboard.Event) :
  let at_ evs := fst (Dashboard.steps evs Dashboard.initial) in
  (Dashboard.uploadError (at_ evs) = "" \/ Dashboard.uploadSuccess (at_ evs) = "")
  /\ (forall file,
        Dashboard.uploadError (at_ (evs ++ [Dashboard.UploadComplete file])) = ""
        /\ Dashboard.uploadSuccess (at_ (evs ++ [Dashboard.UploadComplete file]))
           = "File " +:+ Dashboard.quote +:+ FileAsset.filename file +:+ Dashboard.quote
             +:+ " uploaded successfully.")
  /\ (forall error,
        Dashboard.uploadError (at_ (evs ++ [Dashboard.UploadError error])) = error
        /\ Dashboard.uploadSuccess (at_ (evs ++ [Dashboard.UploadError error])) = "").
Proof.
  cbv zeta. split; [|split].
  - apply steps_banners. left. reflexivity.
  - intros file. rewrite steps_app. simpl. split; reflexivity.
  - intros error. rewrite steps_app. simpl. split; reflexivity.
Qed.

Lemma filter_delete_length {A} (f : A -> bool) (l : list A) (i : nat) (x : A) :
  l !! i = Some x ->
  length (List.filter f l)
  = (length (List.filter f (delete i l)) + (if f x then 1 else 0))%nat.
Proof.
  revert i. induction l as [|y l IH]; intros i H; [discriminate|].
  destruct i as [|i].
  - injection H as ->. simpl. destruct (f x); simpl; lia.
  - simpl in H. change (delete (S i) (y :: l)) with (y :: delete i l).
    specialize (IH i H). simpl. destruct (f y); simpl; lia.
Qed.

Lemma filter_app_length {A} (f : A -> bool) (l k : list A) :
  length (List.filter f (l ++ k))
  = (length (List.filter f l) + length (List.filter f k))%nat.
Proof. rewrite List.filter_app, length_app. reflexivity. Qed.

Lemma step_refreshes (ev : Dashboard.Event) (s : Dashboard.State) :
  (snd (Dashboard.step ev s) + Dashboard.refreshes_pending (fst (Dashboard.step ev s))
   = Dashboard.refreshes_pending s + (if Dashboard.is_complete ev then 1 else 0))%nat.
Proof.
  unfold Dashboard.refreshes_pending.
  destruct ev as [file|error|i]; simpl.
  - rewrite filter_app_length. simpl. lia.
  - rewrite filter_app_length. simpl. lia.
  - destruct (Dashboard.pending s !! i) as [t|] eqn:Ht; [|simpl; lia].
    rewrite (filter_delete_length Dashboard.is_refresh _ i t Ht).
    destruct t; simpl; lia.
Qed.

(** Every completed upload gets the file list refreshed once, and nothing
    else does: at any moment the refreshes asked so far and the refresh
    timers still pending add up to the number of uploads that completed.
    Failed uploads and the banners' own timers ask for none. *)
Theorem one_refresh_per_upload (evs : list Dashboard.Event) :
  let run := Dashboard.steps evs Dashboard.initial in
  (snd run + Dashboard.refreshes_pending (fst run) = Dashboard.completed evs)%nat
  /\ (Dashboard.completed evs = 0%nat -> snd run = 0%nat)
  /\ (snd run <= Dashboard.completed evs)%nat.
Proof.
  cbv zeta.
  assert (H : forall s,
            (snd (Dashboard.steps evs s)
             + Dashboard.refreshes_pending (fst (Dashboard.steps evs s))
             = Dashboard.refreshes_pending s + Dashboard.completed evs)%nat).
  { induction evs as [|ev evs IH]; intros s; [simpl; unfold Dashboard.completed; simpl; lia|].
    simpl. pose proof (step_refreshes ev s) as H1.
    destruct (Dashboard.step ev s) as [s1 n1]. specialize (IH s1).
    destruct (Dashboard.steps evs s1) as [s2 n2]. simpl in *.
    unfold Dashboard.completed in *. simpl.
    destruct (Dashboard.is_complete ev); simpl; lia. }
  specialize (H Dashboard.initial).
  change (Dashboard.refreshes_pending Dashboard.initial) with 0%nat in H.
  lia.
Qed.

(** ** The chat view over its life *)

Section ChatLife.

Import Chat.

Lemma tidy_initial (c : option Z) (n : positive) : tidy (initial c n).
Proof.
  split; intros t; simpl.
  - rewrite lookup_empty. split; [intros [? ?]; discriminate | discriminate].
  - discriminate.
Qed.

(** The timers after a resolved send. *)
Lemma handleSend_resolved_timers p response notify s :
  let s' := fst (handleSend_resolved p response notify s) in
  if (length (Message.content (ChatResponse.response response)) =? 0)%nat
  then intervals s' = intervals s
       /\ streamingIntervalRef s' = streamingIntervalRef s
       /\ nextInterval s' = nextInterval s
  else exists r,
       intervals s'
       = <[nextInterval s := r]>
           (match streamingIntervalRef s with
            | Some old => delete old (intervals s)
            | None => intervals s
            end)
       /\ streamingIntervalRef s' = Some (nextInterval s)
       /\ nextInterval s' = Pos.succ (nextInterval s).
Proof.
  cbv zeta. unfold handleSend_resolved.
  destruct (negb (bool_decide _)); simpl;
    destruct (length _ =? 0)%nat; simpl;
    try (repeat split; reflexivity);
    destruct (streamingIntervalRef s); simpl; eexists; repeat split.
Qed.

Lemma tidy_resolved p response notify s :
  tidy s -> tidy (fst (handleSend_resolved p response notify s)).
Proof.
  intros [Hlive Hold].
  pose proof (handleSend_resolved_timers p response notify s) as H. cbv zeta in H.
  destruct (length _ =? 0)%nat.
  - destruct H as (Hi & Hr & Hn). split; intros t; rewrite ?Hi, Hr, ?Hn; auto.
  - destruct H as (r & Hi & Hr & Hn). split; intros t; rewrite ?Hi, Hr, ?Hn.
    + destruct (decide (t = nextInterval s)) as [->|Hne].
      * rewrite lookup_insert_eq. split; [reflexivity|eauto].
      * rewrite lookup_insert_ne by congruence.
        split; [|intros [= ?]; congruence].
        intros Hsome. exfalso.
        destruct (streamingIntervalRef s) as [old|] eqn:Href.
        -- destruct (decide (t = old)) as [->|Hne'].
           ++ rewrite lookup_delete_eq in Hsome. destruct Hsome; discriminate.
           ++ rewrite lookup_delete_ne in Hsome by congruence.
              apply Hlive in Hsome. congruence.
        -- apply Hlive in Hsome. discriminate.
    + intros [= <-]. lia.
Qed.

Lemma tidy_tick t s : tidy s -> tidy (tick t s).
Proof.
  intros [Hlive Hold]. unfold tick.
  destruct (intervals s !! t) as [r|] eqn:Hr; [|split; assumption].
  assert (Href : streamingIntervalRef s = Some t) by (apply Hlive; eauto).
  cbv zeta. simpl. rewrite Href.
  destruct (_ <=? _)%nat; simpl.
  - split; intros t'; simpl; [|discriminate].
    split; [|discriminate]. intros Hsome. exfalso.
    destruct (decide (t' = t)) as [->|Hne].
    + rewrite lookup_delete_eq in Hsome. destruct Hsome; discriminate.
    + rewrite lookup_delete_ne, lookup_insert_ne in Hsome by congruence.
      apply Hlive in Hsome. congruence.
  - split; intros t'; simpl.
    + rewrite Href. destruct (decide (t' = t)) as [->|Hne].
      * rewrite lookup_insert_eq. split; eauto.
      * rewrite lookup_insert_ne by congruence. rewrite Hlive, Href. reflexivity.
    + rewrite Href. intros [= <-]. apply Hold, Href.
Qed.

Lemma tidy_event (s s' : State) : tidy s -> event s s' -> tidy s'.
Proof.
  intros Ht Hev.
  destruct Hev as [v s|now iso selected s p s1 Hb|p response notify s|p err now iso s
                  |t s|convId answer s|conversationId s|s].
  - exact Ht.
  - destruct (handleSend_begin_Some _ _ _ _ _ _ Hb)
      as (_ & _ & _ & _ & Hr & Hi & Hn & _).
    destruct Ht as [Hlive Hold]. split; intros t; rewrite ?Hi, Hr, ?Hn; auto.
  - apply tidy_resolved, Ht.
  - exact Ht.
  - apply tidy_tick, Ht.
  - destruct answer; exact Ht.
  - unfold conversationEffect. destruct conversationId as [c|]; [|exact Ht].
    destruct (negb _ && negb _); exact Ht.
  - exact Ht.
Qed.

(** At most one reveal timer is ever live, and it is the one the ref
    holds: after any sequence of events since the view mounted, a timer is
    registered exactly when the ref holds its handle.  So a firing of any
    other handle changes nothing, and with the ref empty nothing is left
    that could change the messages. *)
Theorem one_reveal_timer (c : option Z) (n : positive) (s : State) :
  rtc event (initial c n) s ->
  tidy s
  /\ (forall t1 t2, is_Some (intervals s !! t1) -> is_Some (intervals s !! t2) -> t1 = t2)
  /\ (forall t, streamingIntervalRef s <> Some t -> tick t s = s)
  /\ (streamingIntervalRef s = None -> intervals s = ∅).
Proof.
  intros Hrun.
  assert (Ht : tidy s).
  { revert s Hrun. apply rtc_ind_r; [apply tidy_initial|].
    intros s s' _ Hev Ht. exact (tidy_event s s' Ht Hev). }
  split; [exact Ht|]. destruct Ht as [Hlive Hold].
  split; [|split].
  - intros t1 t2 H1 H2. apply Hlive in H1, H2. congruence.
  - intros t Hne. apply tick_dead.
    destruct (intervals s !! t) eqn:Hl; [|reflexivity].
    exfalso. apply Hne, Hlive. eauto.
  - intros Hnone. apply map_empty. intros t.
    destruct (intervals s !! t) eqn:Hl; [|reflexivity].
    assert (Hs : streamingIntervalRef s = Some t) by (apply Hlive; eauto).
    congruence.
Qed.

Lemma tick_keeps (t : positive) (tg : Z) (m : Message.t) (s : State) :
  (forall r, intervals s !! t = Some r -> target r = tg) ->
  m ∈ messages s -> Message.id m <> tg ->
  m ∈ messages (tick t s)
  /\ (forall r, intervals (tick t s) !! t = Some r -> target r = tg).
Proof.
  intros Htg Hm Hne. unfold tick.
  destruct (intervals s !! t) as [r|] eqn:Hr.
  - specialize (Htg r eq_refl). cbv zeta. simpl.
    assert (Hin : m ∈ patch (target r)
                    (Js.slice0 (Nat.min (length (fullText r)) (index r + step r))
                       (fullText r)) (cited r) (messages s)).
    { unfold patch. apply list_elem_of_fmap. exists m. split; [|exact Hm].
      rewrite bool_decide_eq_false_2 by congruence. reflexivity. }
    destruct (streamingIntervalRef s) as [current|]; simpl.
    + destruct (_ <=? _)%nat; simpl; (split; [exact Hin|]); intros r'.
      * destruct (decide (t = current)) as [->|Hc].
        -- rewrite lookup_delete_eq. discriminate.
        -- rewrite lookup_delete_ne, lookup_insert_eq by congruence.
           intros [= <-]. exact Htg.
      * rewrite lookup_insert_eq. intros [= <-]. exact Htg.
    + split; [exact Hin|]. intros r'. rewrite lookup_insert_eq.
      intros [= <-]. exact Htg.
  - split; [exact Hm|]. intros r. rewrite Hr. discriminate.
Qed.

Lemma ticks_keeps (k : nat) (t : positive) (tg : Z) (m : Message.t) (s : State) :
  (forall r, intervals s !! t = Some r -> target r = tg) ->
  m ∈ messages s -> Message.id m <> tg ->
  m ∈ messages (ticks k t s).
Proof.
  revert s. induction k as [|k IH]; intros s Htg Hm Hne; [exact Hm|].
  simpl. destruct (tick_keeps t tg m s Htg Hm Hne) as [Hm' Htg'].
  apply IH; assumption.
Qed.

(** An answer that arrives while an earlier one is still being revealed
    takes the timer over: the earlier interval is cleared, so its firings do
    nothing any more, and the only live timer is the new one.  The earlier
    reply is left on screen cut off where the reveal had got to: unless its
    id is the temporary id or the id of the new reply, no later firing
    changes it. *)
Theorem new_answer_cuts_reveal_short (p : Pending) (response : ChatResponse.t)
    (notify : bool) (s : State) (t0 : positive) (r0 : Reveal) :
  tidy s ->
  intervals s !! t0 = Some r0 ->
  Message.content (ChatResponse.response response) <> [] ->
  let s' := fst (handleSend_resolved p response notify s) in
  let t := nextInterval s in
  t <> t0
  /\ intervals s' !! t0 = None
  /\ (forall k, ticks k t0 s' = s')
  /\ streamingIntervalRef s' = Some t
  /\ (forall t', is_Some (intervals s' !! t') <-> t' = t)
  /\ (forall m, m ∈ messages s ->
        Message.id m <> Message.id (tempUserMessage p) ->
        Message.id m <> Message.id (ChatResponse.response response) ->
        forall k t', m ∈ messages (ticks k t' s')).
Proof.
  intros Ht Hr0 Hne s' t.
  pose proof (tidy_resolved p response notify s Ht) as Ht'. fold s' in Ht'.
  destruct Ht as [Hlive Hold].
  assert (Href : streamingIntervalRef s = Some t0) by (apply Hlive; eauto).
  destruct (handleSend_resolved_timer p response notify s Hne) as (Hr' & Hi' & Hm').
  fold s' t in Hr', Hi', Hm'.
  assert (Htt : t <> t0).
  { pose proof (Hold t0 Href) as Hlt. unfold t. intros Heq. rewrite Heq in Hlt. lia. }
  assert (Hdead : intervals s' !! t0 = None).
  { destruct (intervals s' !! t0) eqn:Hl; [|reflexivity].
    exfalso. apply Htt. destruct Ht' as [Hlive' _].
    assert (Hs : streamingIntervalRef s' = Some t0) by (apply Hlive'; eauto).
    congruence. }
  split; [exact Htt|]. split; [exact Hdead|].
  split; [intros k; apply ticks_dead, Hdead|].
  split; [exact Hr'|]. split.
  { intros t'. destruct Ht' as [Hlive' _]. rewrite Hlive', Hr'.
    split; [intros [= ->]; reflexivity | intros ->; reflexivity]. }
  intros m Hm Htemp Hreply k t'.
  assert (Hin : m ∈ messages s').
  { rewrite Hm'. apply elem_of_app. left. apply elem_of_without. tauto. }
  destruct (decide (t' = t)) as [->|Hother].
  - apply (ticks_keeps k t (Message.id (ChatResponse.response response))); try assumption.
    intros r. rewrite Hi'. intros [= <-]. reflexivity.
  - rewrite ticks_dead; [exact Hin|].
    destruct (intervals s' !! t') eqn:Hl; [|reflexivity].
    exfalso. apply Hother. destruct Ht' as [Hlive' _].
    assert (Hs : streamingIntervalRef s' = Some t') by (apply Hlive'; eauto).
    congruence.
Qed.

(** The effect on the prop [conversationId] comes to rest.  Run again on
    the same prop it starts no second load and changes nothing; an id of 0
    or no id never starts a load; and when a send has just adopted a new
    conversation and handed its id to the parent, the effect on that id
    starts no load, so the messages of the send are kept. *)
Theorem conversation_effect_settles (conversationId : option Z) (s : State)
    (p : Pending) (response : ChatResponse.t) (notify : bool) :
  let s1 := snd (conversationEffect conversationId s) in
  let sent := handleSend_resolved p response notify s in
  conversationEffect conversationId s1 = (None, s1)
  /\ conversationEffect (Some 0%Z) s = (None, s)
  /\ conversationEffect None s = (None, s)
  /\ (forall c, fst (conversationEffect conversationId s) = Some c ->
        conversationId = Some c /\ c <> 0%Z /\ currentConversationId s <> Some c
        /\ s1 = setCurrentConversationId (Some c) s)
  /\ (forall c, c ∈ snd sent -> c <> 0%Z ->
        conversationEffect (Some c) (fst sent) = (None, fst sent)).
Proof.
  cbv zeta. split; [|split; [|split; [|split]]].
  - unfold conversationEffect. destruct conversationId as [c|]; [|reflexivity].
    destruct (decide (c = 0%Z)) as [->|H0]; [reflexivity|].
    rewrite (bool_decide_eq_false_2 _ H0). simpl.
    destruct (decide (Some c = currentConversationId s)) as [He|Hne].
    + rewrite (bool_decide_eq_true_2 _ He). simpl.
      rewrite (bool_decide_eq_true_2 _ He). reflexivity.
    + rewrite (bool_decide_eq_false_2 _ Hne). simpl.
      rewrite bool_decide_eq_true_2 by reflexivity. reflexivity.
  - reflexivity.
  - reflexivity.
  - intros c. unfold conversationEffect. destruct conversationId as [c'|]; [|discriminate].
    destruct (decide (c' = 0%Z)) as [->|H0]; [discriminate|].
    rewrite (bool_decide_eq_false_2 _ H0). simpl.
    destruct (decide (Some c' = currentConversationId s)) as [He|Hne].
    + rewrite (bool_decide_eq_true_2 _ He). discriminate.
    + rewrite (bool_decide_eq_false_2 _ Hne). simpl. intros [= <-].
      repeat split; congruence.
  - intros c Hc H0.
    destruct (handleSend_resolved_conversation p response notify s) as [Hch Hsame].
    cbv zeta in Hch, Hsame.
    destruct (decide (Some (ChatResponse.conversation_id response) = sentConversationId p))
      as [He|Hne].
    + destruct (Hsame He) as [_ Hnil]. rewrite Hnil in Hc. inversion Hc.
    + destruct (Hch Hne) as [Hcur Hids]. rewrite Hids in Hc.
      destruct notify; [|inversion Hc].
      apply list_elem_of_singleton in Hc as ->.
      unfold conversationEffect.
      rewrite (bool_decide_eq_false_2 _ H0), Hcur.
      rewrite bool_decide_eq_true_2 by reflexivity. reflexivity.
Qed.

(** Nothing ties a history load to the conversation that is current when
    it settles.  When the prop goes to [a] and then to [b] and the history
    of [b] arrives before that of [a], the view ends up showing the
    messages of [a] under the id [a], while the prop says [b].  The effect
    depends on the prop alone, so it does not run again by itself; were it
    run on [b] it would start a load of [b] once more. *)
Theorem late_history_wins (a b : Z) (ha hb : Conversation.t) (s : State) :
  a <> 0%Z -> b <> 0%Z -> a <> b -> currentConversationId s <> Some a ->
  let s1 := snd (conversationEffect (Some a) s) in
  let s2 := snd (conversationEffect (Some b) s1) in
  let s3 := loadConversationHistory b (inl hb) s2 in
  let s4 := loadConversationHistory a (inl ha) s3 in
  fst (conversationEffect (Some a) s) = Some a
  /\ fst (conversationEffect (Some b) s1) = Some b
  /\ messages s3 = Conversation.messages hb /\ currentConversationId s3 = Some b
  /\ messages s4 = Conversation.messages ha /\ currentConversationId s4 = Some a
  /\ fst (conversationEffect (Some b) s4) = Some b.
Proof.
  intros Ha Hb Hab Hcur. cbv zeta. unfold conversationEffect.
  rewrite (bool_decide_eq_false_2 _ Ha), (bool_decide_eq_false_2 _ Hb).
  rewrite (bool_decide_eq_false_2 (Some a = currentConversationId s)) by congruence.
  simpl.
  rewrite !(bool_decide_eq_false_2 (Some b = Some a)) by congruence.
  repeat split.
Qed.

End ChatLife.

(** ** Runs of the properties above *)

(** A request with a stale token: three calls, the request sent twice. *)
Lemma request_wire_witness :
  exists b',
    Api.client None Scenario.net Scenario.refresh_up 2 Scenario.getFiles Scenario.browser
    = Some (Api.Resolved Scenario.listing, b')
    /\ Api.Trace Scenario.getFiles (Api.wire Scenario.browser) (Api.wire b')
    /\ (Api.send_calls (Api.wire b') <= 2)%nat
    /\ (length (Api.wire b') <= 3)%nat.
Proof.
  assert (Hrun : exists b',
            Api.client None Scenario.net Scenario.refresh_up (2 + 0) Scenario.getFiles
              Scenario.browser = Some (Api.Resolved Scenario.listing, b')).
  { eexists. reflexivity. }
  destruct Hrun as [b' Hrun]. exists b'. split; [exact Hrun|].
  exact (request_wire_shape None Scenario.net Scenario.refresh_up 0 Scenario.getFiles
           Scenario.browser _ b' Hrun).
Defined.

(** The refresh endpoint is down: the three keys are gone, the page is the
    login page. *)
Lemma request_storage_witness :
  exists b',
    Api.client None Scenario.net Scenario.refresh_down 2 Scenario.getFiles Scenario.browser
    = Some (Api.Rejected Scenario.network_error, b')
    /\ (forall k, k <> "access_token" -> k <> "refresh_token" -> k <> "user" ->
          Storage.getItem k (Api.localStorage b')
          = Storage.getItem k (Api.localStorage Scenario.browser)).
Proof.
  assert (Hrun : exists b',
            Api.client None Scenario.net Scenario.refresh_down (2 + 0) Scenario.getFiles
              Scenario.browser = Some (Api.Rejected Scenario.network_error, b')).
  { eexists. reflexivity. }
  destruct Hrun as [b' Hrun]. exists b'. split; [exact Hrun|].
  exact (proj1 (request_storage_frame None Scenario.net Scenario.refresh_down 0
                  Scenario.getFiles Scenario.browser _ b' Hrun)).
Defined.

(** A stored profile that does not parse. *)
Lemma corrupt_profile_witness :
  Auth.state (Auth.checkAuth Scenario.parse Scenario.torn_profile)
  = {| Auth.user := None; Auth.isAuthenticated := true |}.
Proof.
  refine (proj2 (corrupt_profile_gives_no_user Scenario.parse Scenario.torn_profile _)
            "a1" eq_refl _); [|discriminate].
  right. right. exists "{". split; reflexivity.
Defined.

(** Alice's requests after she signed in, and after she signed out. *)
Lemma login_authorises_witness :
  let w1 := snd (Auth.login Scenario.stringify Scenario.accounts "alice" "pw"
                   Scenario.signed_out) in
  Api.requestInterceptor Scenario.getFiles
    {| Api.localStorage := Auth.localStorage w1; Api.href := "/"; Api.wire := [] |}
  = Api.set_Authorization "Bearer a1" Scenario.getFiles
  /\ Api.requestInterceptor Scenario.getFiles
       {| Api.localStorage := Auth.localStorage (Auth.logout w1);
          Api.href := "/"; Api.wire := [] |}
     = Scenario.getFiles.
Proof.
  exact (login_authorises_requests Scenario.stringify Scenario.accounts "alice" "pw"
           Scenario.signed_out
           {| AuthResponse.user := Scenario.alice;
              AuthResponse.tokens :=
                {| AuthTokens.access := "a1"; AuthTokens.refresh := "r1" |} |}
           Scenario.getFiles "/" [] eq_refl ltac:(discriminate)).
Defined.

(** The photo is sent as a jpeg. *)
Lemma file_type_witness : Upload.fileTypeOf Scenario.photo = "jpeg".
Proof.
  refine (proj1 (file_type_from_extension Scenario.photo "holiday.v2" "JPG" eq_refl eq_refl
                   _ _)).
  - intros H. apply elem_of_cons in H as [H|H]; [discriminate|].
    apply list_elem_of_singleton in H. discriminate.
  - left. reflexivity.
Defined.

(** The view after typing, a send, its answer and one tick. *)
Lemma one_reveal_timer_witness :
  Chat.tidy Scenario.cut_off
  /\ (forall t, Chat.streamingIntervalRef Scenario.cut_off <> Some t ->
        Chat.tick t Scenario.cut_off = Scenario.cut_off).
Proof.
  assert (Hrun : rtc Chat.event (Chat.initial None 1) Scenario.cut_off).
  { eapply rtc_l; [exact (Chat.on_type (Js.lit "  What is in b.pdf? ") (Chat.initial None 1))|].
    eapply rtc_l;
      [exact (Chat.on_submit Scenario.t_send Scenario.iso_send [2%Z]
                (Chat.setInput (Js.lit "  What is in b.pdf? ") (Chat.initial None 1))
                Scenario.pending Scenario.awaiting eq_refl)|].
    eapply rtc_l;
      [exact (Chat.on_answer Scenario.pending (Scenario.answered 7 8) true
                Scenario.awaiting)|].
    eapply rtc_l; [apply (Chat.on_tick 1)|].
    apply rtc_refl. }
  destruct (one_reveal_timer None 1 Scenario.cut_off Hrun) as (H1 & _ & H3 & _).
  split; [exact H1 | exact H3].
Defined.

(** A second answer arrives after the first tick of the first reveal: the
    first reply stays at its first ten characters. *)
Lemma new_answer_witness :
  exists p s,
    Chat.handleSend_begin Scenario.t_fail Scenario.iso_fail [3%Z] Scenario.asked_again
    = Some (p, s)
    /\ let s' := fst (Chat.handleSend_resolved p (Scenario.answered 9 10) true s) in
       Chat.intervals s' !! 1%positive = None
       /\ Chat.streamingIntervalRef s' = Some 2%positive
       /\ forall k t, Scenario.cut_reply ∈ Chat.messages (Chat.ticks k t s').
Proof.
  assert (Hb : exists p s,
            Chat.handleSend_begin Scenario.t_fail Scenario.iso_fail [3%Z]
              Scenario.asked_again = Some (p, s)
            /\ Chat.tidy s
            /\ (exists r0, Chat.intervals s !! 1%positive = Some r0)
            /\ Chat.nextInterval s = 2%positive
            /\ Message.id (Chat.tempUserMessage p) = Scenario.t_fail
            /\ Scenario.cut_reply ∈ Chat.messages s).
  { eexists _, _. split; [reflexivity|]. split.
    - apply (tidy_tick 1
               (fst (Chat.handleSend_resolved Scenario.pending (Scenario.answered 7 8) true
                       Scenario.awaiting))).
      apply (tidy_resolved Scenario.pending (Scenario.answered 7 8) true Scenario.awaiting).
      exact (tidy_initial None 1).
    - split; [eexists; reflexivity|]. split; [reflexivity|]. split; [reflexivity|].
      apply elem_of_cons. right. apply elem_of_cons. left. reflexivity. }
  destruct Hb as (p & s & Hb & Ht & [r0 Hr0] & Hn & Hp & Hm).
  exists p, s. split; [exact Hb|].
  destruct (new_answer_cuts_reveal_short p (Scenario.answered 9 10) true s 1%positive r0
              Ht Hr0 ltac:(discriminate)) as (_ & Hdead & _ & Hnew & _ & Hkeep).
  cbv zeta. split; [exact Hdead|]. split; [rewrite Hnew, Hn; reflexivity|].
  intros k t. apply Hkeep; [exact Hm | rewrite Hp; discriminate | discriminate].
Defined.

(** The prop goes from conversation 41 to 42 and the history of 42 arrives
    first. *)
Lemma late_history_witness :
  let h41 := {| Conversation.id := 41; Conversation.created_at := Scenario.iso_send;
                Conversation.updated_at := Scenario.iso_send;
                Conversation.messages := [Scenario.cut_reply] |} in
  let h42 := {| Conversation.id := 42; Conversation.created_at := Scenario.iso_fail;
                Conversation.updated_at := Scenario.iso_fail;
                Conversation.messages := [] |} in
  let s2 := snd (Chat.conversationEffect (Some 42%Z)
                   (snd (Chat.conversationEffect (Some 41%Z) (Chat.initial None 1)))) in
  let s4 := Chat.loadConversationHistory 41 (inl h41)
              (Chat.loadConversationHistory 42 (inl h42) s2) in
  Chat.messages s4 = [Scenario.cut_reply] /\ Chat.currentConversationId s4 = Some 41%Z.
Proof.
  intros h41 h42 s2 s4.
  destruct (late_history_wins 41 42 h41 h42 (Chat.initial None 1)
              ltac:(discriminate) ltac:(discriminate) ltac:(discriminate)
              ltac:(discriminate)) as (_ & _ & _ & _ & Hm & Hc & _).
  split; [exact Hm | exact Hc].
Defined.
